(** * Verification of the chunked watermark pipeline and the Augmenter

    Shallow embedding of
      - [python-backend/inference_av.py]
          ([process_video_chunk], [embed_video], [analyze_video_chunk],
           [analyze_video]);
      - [python-backend/videoseal/augmentation/augmenter.py]
          ([name2aug], [Augmenter.__init__], [parse_augmentations],
           [augment], [forward]).

    Conventions.
      - Python exceptions are values of [exn]; a computation that may raise
        returns [result]; a local variable that may be read before it is
        assigned is a [local].
      - Python [float]s and tensor entries are idealised as exact rationals
        ([Q]); the only non-finite value that the code under study can
        produce, the NaN of a mean over zero rows, is kept as [NaN].
      - The networks ([video_model.embed], [video_model.detect]), the
        transformation classes of the catalog, the mask embedder and the
        tensor primitives of torch are collaborators outside these source
        files: they are parameters of the development. *)

From Stdlib Require Import Ascii String Bool Arith ZArith QArith Lia Lqa List.
Import ListNotations.

Set Implicit Arguments.

Open Scope string_scope.
Open Scope list_scope.
Open Scope Z_scope.

(** ** Python semantics used by the sources *)

Module Py.

(** The exception classes that the modelled code can raise. *)
Inductive exn : Type :=
| ValueError (msg : string)
| RuntimeError (msg : string)
| ZeroDivisionError (msg : string)
| UnboundLocalError (var : string)
| IndexError (msg : string)
| AttributeError (msg : string).

(** The name of the class of an exception, as [type(e).__name__]. *)
Definition exn_class (e : exn) : string :=
  match e with
  | ValueError _ => "ValueError"
  | RuntimeError _ => "RuntimeError"
  | ZeroDivisionError _ => "ZeroDivisionError"
  | UnboundLocalError _ => "UnboundLocalError"
  | IndexError _ => "IndexError"
  | AttributeError _ => "AttributeError"
  end.

Inductive result (A : Type) : Type :=
| Ok (a : A)
| Raise (e : exn).
Arguments Ok {A} a.
Arguments Raise {A} e.

Definition bind {A B} (c : result A) (k : A -> result B) : result B :=
  match c with
  | Ok a => k a
  | Raise e => Raise e
  end.

Definition raises {A} (c : result A) : Prop := exists e, c = Raise e.

(** [for x in xs: s = body(s, x)], leaving the loop at the first raise. *)
Fixpoint for_each {S X} (body : S -> X -> result S) (xs : list X) (s : S)
  : result S :=
  match xs with
  | [] => Ok s
  | x :: xs' => bind (body s x) (for_each body xs')
  end.

(** [len(range(start, stop, step))] for a non-zero step, as CPython
    computes it. *)
Definition range_length (start stop step : Z) : Z :=
  if 0 <? step then
    if start <? stop then (stop - start - 1) / step + 1 else 0
  else
    if stop <? start then (start - stop - 1) / (- step) + 1 else 0.

(** [range(start, stop, step)]; a zero step raises [ValueError]. *)
Definition range (start stop step : Z) : result (list Z) :=
  if step =? 0 then Raise (ValueError "range() arg 3 must not be zero")
  else Ok (map (fun k => start + Z.of_nat k * step)
               (seq 0 (Z.to_nat (range_length start stop step)))).

(** One bound of a slice with step 1 on a sequence of length [len]:
    negative bounds count from the end, then the bound is clamped. *)
Definition slice_bound (len i : Z) : Z :=
  let i' := if i <? 0 then i + len else i in
  Z.max 0 (Z.min len i').

(** [xs[i:j]]. *)
Definition slice {A} (xs : list A) (i j : Z) : list A :=
  let len := Z.of_nat (length xs) in
  let lo := slice_bound len i in
  let hi := slice_bound len j in
  firstn (Z.to_nat (hi - lo)) (skipn (Z.to_nat lo) xs).

(** [sep.join(parts)]. *)
Fixpoint join (sep : string) (parts : list string) : string :=
  match parts with
  | [] => ""
  | [p] => p
  | p :: ps => (p ++ sep ++ join sep ps)%string
  end.

(** [str(e)]: the message of the exception (for [UnboundLocalError], the
    one that CPython 3.11 and later build from the name of the variable). *)
Definition str (e : exn) : string :=
  match e with
  | ValueError msg | RuntimeError msg | ZeroDivisionError msg
  | IndexError msg | AttributeError msg => msg
  | UnboundLocalError var =>
    ("cannot access local variable '" ++ var ++
     "' where it is not associated with a value")%string
  end.

End Py.

Import Py.

Notation "x <- c ;; k" := (Py.bind c (fun x => k))
  (at level 61, c at next level, right associativity).
Notation "' pat <- c ;; k" := (Py.bind c (fun x => match x with pat => k end))
  (at level 61, pat pattern, c at next level, right associativity).

(** ** The torch primitives that the sources call *)

Module Torch.

(** *** The random generator

    The global generator is a stream of raw unsigned draws and a cursor.
    Each sampling primitive reads draws at the cursor and moves it on. *)
Record Generator : Type := mkGenerator {
  raw : nat -> Z;
  pos : nat
}.

Definition advance (n : nat) (g : Generator) : Generator :=
  {| raw := raw g; pos := (pos g + n)%nat |}.

(** The [k]-th draw after the cursor. *)
Definition draw (g : Generator) (k : nat) : Z := raw g (pos g + k)%nat.

(** [torch.randint(low, high, (r, c))]: one draw per entry, reduced to
    [low + draw mod (high - low)], rows filled in order. *)
Definition randint (low high : Z) (r c : nat) (g : Generator)
  : list (list Z) * Generator :=
  (map (fun i => map (fun j => low + draw g (i * c + j) mod (high - low))
                     (seq 0 c))
       (seq 0 r),
   advance (r * c) g).

(** [t.clone()]: a fresh tensor with the same entries. *)
Definition clone {A} (t : list (list A)) : list (list A) := t.

(** [t.cpu().numpy().flatten().tolist()] *)
Definition flatten_tolist {A} (t : list (list A)) : list A := concat t.

Definition Qsum (qs : list Q) : Q := fold_right Qplus 0%Q qs.

(** Inversion of the cumulative weights at the point [t]. *)
Fixpoint pick (ps : list Q) (t : Q) : nat :=
  match ps with
  | [] => O
  | p :: ps' => if Qlt_le_dec t p then O else S (pick ps' (t - p)%Q)
  end.

(** A uniform point of [[0, 1)] read from one raw draw. *)
Definition uniform (g : Generator) : Q :=
  (draw g 0 mod 2 ^ 53) # (2 ^ 53).

Definition has_negative (ps : list Q) : bool :=
  existsb (fun p => if Qlt_le_dec p 0 then true else false) ps.

(** [torch.multinomial(probs, 1).item()] on a one-dimensional weight
    tensor: the three rejections of torch, then one category drawn with
    probability proportional to its weight.  The draw is modelled by
    inversion of the cumulative weights at one uniform point; torch runs
    an exponential race, which has the same distribution.  The properties
    below use only that the category is an index into [probs]. *)
Definition multinomial (probs : list Q) (g : Generator)
  : result (nat * Generator) :=
  match probs with
  | [] => Raise (RuntimeError
      "cannot sample n_sample > prob_dist.size(-1) samples without replacement")
  | _ =>
    if has_negative probs then Raise (RuntimeError
      "probability tensor contains either `inf`, `nan` or element < 0")
    else if Qeq_bool (Qsum probs) 0 then Raise (RuntimeError
      "invalid multinomial distribution (sum of probabilities <= 0)")
    else Ok (pick probs (uniform g * Qsum probs)%Q, advance 1 g)
  end.

(** *** Conversion of a float entry to an unsigned byte *)

(** Rounding toward zero, as the conversion of a float to a 64-bit
    integer does. *)
Definition truncate (x : Q) : Z := Z.quot (Qnum x) (Z.pos (Qden x)).

(** [.byte()] on one float entry: torch converts through a 64-bit integer
    and keeps its low eight bits. *)
Definition byte (x : Q) : Z := truncate x mod 256.

(** *** Two-dimensional prediction tensors *)

(** An entry of a result: a finite value or the NaN of [0 / 0]. *)
Inductive score : Type :=
| Fin (q : Q)
| NaN.

(** A tensor of shape [(length rows, ncols)]. *)
Record tensor2 : Type := mkTensor2 {
  ncols : nat;
  rows : list (list Q)
}.

(** [t[:, 1:]] *)
Definition drop_first_column (t : tensor2) : tensor2 :=
  {| ncols := pred (ncols t); rows := map (@tl Q) (rows t) |}.

(** [torch.cat(ts, dim=0)] *)
Definition cat (ts : list tensor2) : result tensor2 :=
  match ts with
  | [] => Raise (RuntimeError
      "torch.cat(): expected a non-empty list of Tensors")
  | t :: ts' =>
    if forallb (fun u => Nat.eqb (ncols u) (ncols t)) ts'
    then Ok {| ncols := ncols t; rows := concat (map rows ts) |}
    else Raise (RuntimeError
      "Sizes of tensors must match except in dimension 0")
  end.

(** Column [j] of a tensor, one entry per row. *)
Definition column (j : nat) (t : tensor2) : list Q :=
  map (fun r => nth j r 0%Q) (rows t).

(** [t.mean(dim=0).cpu().numpy().tolist()]: per column, the sum of the
    entries divided by the number of rows; NaN when there is no row. *)
Definition mean_dim0 (t : tensor2) : list score :=
  map (fun j =>
         match rows t with
         | [] => NaN
         | _ => Fin (Qsum (column j t) / inject_Z (Z.of_nat (length (rows t))))%Q
         end)
      (seq 0 (ncols t)).

End Torch.

(** ** [inference_av.py]: the chunked embed and detect loops *)

Module InferenceAv.
Import Torch.

(** A decoded frame: its unsigned-byte entries, in CHW order. *)
Definition frame : Type := list Z.

(** A frame of a float clip. *)
Definition float_frame : Type := list Q.

(** The message tensor of shape (1, 96). *)
Definition message : Type := list (list Z).

(** [chunk.data.float() / 255.0] *)
Definition to_unit_range (chunk : list frame) : list float_frame :=
  map (map (fun p => inject_Z p / 255)%Q) chunk.

(** What the running process holds besides the video: the generator and
    the record of the [msgs] arguments that [video_model.embed] has been
    called with, oldest first. *)
Record world : Type := mkWorld {
  gen : Generator;
  embed_log : list message
}.

Section Pipeline.

(** [video_model.embed(clip, msgs=m, is_video=True)]: the ["imgs_w"]
    entry of its answer, and the entries of the tensor passed as
    [msgs] once the call is over (the callee may write into it). *)
Variable model_embed : list float_frame -> message -> list float_frame * message.

(** [video_model.detect(clip, is_video=True)["preds"]] *)
Variable model_detect : list float_frame -> tensor2.

(** [process_video_chunk(chunk, message_bits)]: the processed clip, the
    argument tensor after the call, and the log with this call added. *)
Definition process_video_chunk (log : list message) (chunk : list frame)
           (message_bits : message)
  : list frame * message * list message :=
  let clip_tensor := to_unit_range chunk in
  let '(imgs_w, message_bits') := model_embed clip_tensor message_bits in
  let processed_clip := map (map (fun x => byte (x * 255)%Q)) imgs_w in
  (processed_clip, message_bits', log ++ [message_bits]).

(** The slices [decoder[i : i + chunk_size]] taken by the loop
    [for i in range(0, len(decoder), chunk_size)], in loop order. *)
Definition decoder_chunks (decoder : list frame) (chunk_size : Z)
  : result (list (list frame)) :=
  idxs <- Py.range 0 (Z.of_nat (length decoder)) chunk_size ;;
  Ok (map (fun i => Py.slice decoder i (i + chunk_size)) idxs).

(** State of the loop of [embed_video]: the frames written to the
    stream so far and the log of [embed] calls. *)
Record embed_loop : Type := mkEmbedLoop {
  written : list frame;
  log : list message
}.

(** [embed_video(input_path, output_path, chunk_size)], where [decoder]
    is [VideoDecoder(input_path)].  The result is the pair that the source
    returns, then the frames that the stream writer received, then the
    world after the call.  The clone given to [process_video_chunk] is
    dropped after each round, whatever the callee wrote into it. *)
Definition embed_video (w : world) (decoder : list frame)
           (output_path : string) (chunk_size : Z)
  : result ((string * list Z) * list frame * world) :=
  let '(message_bits, g') := randint 0 2 1 96 (gen w) in
  let message_bits_list := flatten_tolist message_bits in
  idxs <- Py.range 0 (Z.of_nat (length decoder)) chunk_size ;;
  final <- Py.for_each
    (fun (st : embed_loop) i =>
       let frames := Py.slice decoder i (i + chunk_size) in
       let '(processed_frames, _, log') :=
         process_video_chunk (log st) frames (clone message_bits) in
       Ok {| written := written st ++ processed_frames; log := log' |})
    idxs {| written := []; log := embed_log w |} ;;
  Ok ((output_path, message_bits_list), written final,
      {| gen := g'; embed_log := log final |}).

(** [analyze_video_chunk(chunk)] *)
Definition analyze_video_chunk (chunk : list frame) : tensor2 :=
  let clip_tensor := to_unit_range chunk in
  let outputs := model_detect clip_tensor in
  drop_first_column outputs.

(** [analyze_video(input_path, chunk_size)].  [probe] is the outcome of
    reading width, height and [nb_frames] through [ffmpeg.probe]
    (lines 80-84); the three numbers are not used afterwards. *)
Definition analyze_video (probe : result (Z * Z * Z))
           (decoder : list frame) (chunk_size : Z)
  : result (list score) :=
  _ <- probe ;;
  idxs <- Py.range 0 (Z.of_nat (length decoder)) chunk_size ;;
  soft_msgs <- Py.for_each
    (fun soft_msgs i =>
       let frames := Py.slice decoder i (i + chunk_size) in
       let output_bits := analyze_video_chunk frames in
       Ok (soft_msgs ++ [output_bits]))
    idxs [] ;;
  all_msgs <- cat soft_msgs ;;
  let avg_msg := mean_dim0 all_msgs in
  Ok avg_msg.

End Pipeline.

End InferenceAv.

(** ** [videoseal/augmentation/augmenter.py] *)

Module Augmentation.
Import Torch.

(** The classes that [name2aug] maps to. *)
Inductive aug_class : Type :=
| Rotate | Resize | Crop | Perspective | HorizontalFlip | Identity
| JPEG | GaussianBlur | MedianFilter | Brightness | Contrast | Saturation
| Hue | VideoCompressorAugmenter | H264.

(** [cls.__name__] *)
Definition class_name (c : aug_class) : string :=
  match c with
  | Rotate => "Rotate" | Resize => "Resize" | Crop => "Crop"
  | Perspective => "Perspective" | HorizontalFlip => "HorizontalFlip"
  | Identity => "Identity" | JPEG => "JPEG"
  | GaussianBlur => "GaussianBlur" | MedianFilter => "MedianFilter"
  | Brightness => "Brightness" | Contrast => "Contrast"
  | Saturation => "Saturation" | Hue => "Hue"
  | VideoCompressorAugmenter => "VideoCompressorAugmenter"
  | H264 => "H264"
  end.

(** The classes imported from the [.video] module (line 19): the
    augmentations that recompress the clip with a video codec. *)
Definition from_video_module (c : aug_class) : bool :=
  match c with
  | VideoCompressorAugmenter | H264 => true
  | _ => false
  end.

Definition name2aug : list (string * aug_class) :=
  [ ("rotate", Rotate); ("resize", Resize); ("crop", Crop);
    ("perspective", Perspective); ("hflip", HorizontalFlip);
    ("identity", Identity); ("jpeg", JPEG);
    ("gaussian_blur", GaussianBlur); ("median_filter", MedianFilter);
    ("brightness", Brightness); ("contrast", Contrast);
    ("saturation", Saturation); ("hue", Hue);
    ("video_compression", VideoCompressorAugmenter); ("h264", H264) ].

(** [d[key]] on a dict kept as its list of items; [None] stands for the
    [KeyError]. *)
Fixpoint lookup {V} (d : list (string * V)) (key : string) : option V :=
  match d with
  | [] => None
  | (k, v) :: d' => if String.eqb k key then Some v else lookup d' key
  end.

(** Keyword arguments of a transformation. *)
Definition kwargs : Type := list (string * Q).

(** An instance of a catalog class: the class and the keyword arguments
    it was built with. *)
Record aug : Type := mkAug {
  cls : aug_class;
  params : kwargs
}.

(** A local variable of a running function: not assigned yet, or bound
    to a value. *)
Inductive local (A : Type) : Type :=
| Unbound
| Bound (a : A).
Arguments Unbound {A}.
Arguments Bound {A} a.

(** Reading the local variable [name]. *)
Definition read {A} (name : string) (v : local A) : result A :=
  match v with
  | Bound a => Ok a
  | Unbound => Raise (UnboundLocalError name)
  end.

(** [a / b] on floats. *)
Definition truediv (a b : Q) : result Q :=
  if Qeq_bool b 0 then Raise (ZeroDivisionError "float division by zero")
  else Ok (a / b)%Q.

(** [[f(x) for x in xs]] with an [f] that may raise. *)
Fixpoint comprehension {A B} (f : A -> result B) (xs : list A)
  : result (list B) :=
  match xs with
  | [] => Ok []
  | x :: xs' => y <- f x ;; ys <- comprehension f xs' ;; Ok (y :: ys)
  end.

(** [xs[index]] *)
Definition getitem {A} (xs : list A) (index : nat) : result A :=
  match nth_error xs index with
  | Some a => Ok a
  | None => Raise (IndexError "list index out of range")
  end.

(** The four-dimensional tensors (B x C x H x W) and the operations on
    them that the Augmenter uses. *)
Class Tensors : Type := {
  tensor : Type;
  (** [a * b] *)
  mul : tensor -> tensor -> tensor;
  (** [a + b] *)
  add : tensor -> tensor -> tensor;
  (** [c - a] for a number [c] *)
  rsub : Q -> tensor -> tensor;
  (** [torch.ones_like(a)] *)
  ones_like : tensor -> tensor;
  (** [a[:, 0:1, :, :]] *)
  first_channel : tensor -> tensor;
  (** [a.shape[-2:]] *)
  shape_hw : tensor -> nat * nat;
  (** [nn.functional.interpolate(a, size, mode, align_corners, antialias)] *)
  interpolate : tensor -> nat * nat -> string -> bool -> bool -> tensor;
  (** the result of [interpolate] has the requested height and width *)
  interpolate_shape : forall a size mode ac aa,
      shape_hw (interpolate a size mode ac aa) = size
}.

(** The code of the package outside [augmenter.py]: the [forward] of the
    catalog classes and the mask embedder. *)
Class Collaborators (T : Tensors) : Type := {
  (** [aug(image, mask)] *)
  aug_forward : aug -> tensor -> option tensor -> Generator ->
                tensor * option tensor * Generator;
  (** the [masks] dict given to the constructor *)
  masks_dict : Type;
  embedder : Type;
  (** [get_mask_embedder( **masks )] *)
  get_mask_embedder : masks_dict -> embedder;
  (** [mask_embedder(imgs_w, masks=masks).to(imgs_w.device)] *)
  embedder_call : embedder -> tensor -> option tensor -> Generator ->
                  tensor * Generator
}.

Section Augmenter.
Context {T : Tensors} {C : Collaborators T}.

(** The attributes of an [Augmenter]; [training] is the flag of
    [nn.Module], set by the constructor and cleared by [eval()]. *)
Record Augmenter : Type := mkAugmenter {
  mask_embedder : embedder;
  augs : list aug;
  aug_probs : list Q;
  num_augs : Z;
  training : bool
}.

(** One round of the loop of [parse_augmentations] (lines 104-114), on
    the item [(aug_name, augs[aug_name])].  The constructors of the
    catalog classes are outside this file: the call
    [name2aug[aug_name]( **aug_params )] is taken to return the instance
    with the given parameters, and what a constructor does with keyword
    arguments that it does not know is not modelled. *)
Definition parse_one (augs_params : list (string * kwargs))
           (acc : list aug * list Q) (item : string * Q)
  : result (list aug * list Q) :=
  let '(augmentations, probs) := acc in
  let '(aug_name, weight) := item in
  let aug_prob := weight in
  let aug_params :=
    match lookup augs_params aug_name with
    | Some p => p
    | None => []
    end in
  selected_aug <-
    match lookup name2aug aug_name with
    | Some c => Ok (mkAug c aug_params)
    | None => Raise (ValueError
        ("Augmentation " ++ aug_name ++ " not found. Add it in name2aug."))
    end ;;
  Ok (augmentations ++ [selected_aug], probs ++ [aug_prob]).

(** [parse_augmentations(augs, augs_params)]; the dict [augs] is the
    list of its items in key order. *)
Definition parse_augmentations (augs : list (string * Q))
           (augs_params : list (string * kwargs))
  : result (list aug * list Q) :=
  '(augmentations, probs) <-
    Py.for_each (parse_one augs_params) augs ([], []) ;;
  let total_prob := Qsum probs in
  probs' <- comprehension (fun prob => truediv prob total_prob) probs ;;
  Ok (augmentations, probs').

(** [Augmenter(masks, augs, augs_params, num_augs)]; the call of
    [get_mask_embedder], which is outside this file, is taken to return. *)
Definition init (masks : masks_dict) (augs : list (string * Q))
           (augs_params : list (string * kwargs)) (num_augs : Z)
  : result Augmenter :=
  let mask_embedder := get_mask_embedder masks in
  '(augs', aug_probs) <- parse_augmentations augs augs_params ;;
  Ok {| mask_embedder := mask_embedder; augs := augs';
        aug_probs := aug_probs; num_augs := num_augs;
        training := true |}.

(** [self.eval()] *)
Definition eval (self : Augmenter) : Augmenter :=
  {| mask_embedder := mask_embedder self; augs := augs self;
     aug_probs := aug_probs self; num_augs := num_augs self;
     training := false |}.

(** [nn.functional.interpolate] on a value that may be [None]. *)
Definition interpolate_value (x : option tensor) (size : nat * nat)
           (mode : string) (ac aa : bool) : result tensor :=
  match x with
  | Some a => Ok (interpolate a size mode ac aa)
  | None => Raise (AttributeError
      "'NoneType' object has no attribute 'dim'")
  end.

Definition shape_eqb (a b : nat * nat) : bool :=
  Nat.eqb (fst a) (fst b) && Nat.eqb (snd a) (snd b).

(** The list that [augment] selects from (lines 121-124). *)
Definition call_augs (self : Augmenter) (is_video : bool) : list aug :=
  if negb is_video then
    map (fun a =>
           if negb (String.eqb (class_name (cls a)) "VideoCompressorAugmenter")
           then a else mkAug Identity [])
        (augs self)
  else augs self.

(** [self.augment(image, mask, is_video, do_resize)] *)
Definition augment (self : Augmenter) (image : tensor)
           (mask : option tensor) (is_video do_resize : bool)
           (g : Generator)
  : result (tensor * option tensor * string * Generator) :=
  let augs := call_augs self is_video in
  '(index, g1) <- multinomial (aug_probs self) g ;;
  selected_aug <- getitem augs index ;;
  if negb do_resize then
    let '(image', mask', g2) := aug_forward selected_aug image mask g1 in
    Ok (image', mask', class_name (cls selected_aug), g2)
  else
    let hw := shape_hw image in
    let '(image', mask', g2) := aug_forward selected_aug image mask g1 in
    if negb (shape_eqb (shape_hw image') hw) then
      let image'' := interpolate image' hw "bilinear" false true in
      mask'' <- interpolate_value mask' hw "bilinear" false true ;;
      Ok (image'', Some mask'', class_name (cls selected_aug), g2)
    else
      Ok (image', mask', class_name (cls selected_aug), g2).

(** The local variables of [forward] that its two branches assign. *)
Record locals : Type := mkLocals {
  imgs_aug : local tensor;
  mask_targets : local (option tensor);
  selected_augs : local (list string);
  selected_aug_ : local string;
  selected_aug : local string;
  rng : Generator
}.

(** The body of the loop [for _ in range(self.num_augs)], which is the
    same text in both branches (lines 163-166 and 174-177). *)
Definition forward_step (self : Augmenter) (is_video : bool)
           (L : locals) (_ : Z) : result locals :=
  a <- read "imgs_aug" (imgs_aug L) ;;
  m <- read "mask_targets" (mask_targets L) ;;
  '(a', m', name, g') <- augment self a m is_video false (rng L) ;;
  names <- read "selected_augs" (selected_augs L) ;;
  Ok {| imgs_aug := Bound a'; mask_targets := Bound m';
        selected_augs := Bound (names ++ [name]);
        selected_aug_ := Bound name;
        selected_aug := selected_aug L; rng := g' |}.

(** [return imgs_aug, mask_targets, selected_aug] *)
Definition forward_return (L : locals)
  : result (tensor * option tensor * string * Generator) :=
  a <- read "imgs_aug" (imgs_aug L) ;;
  m <- read "mask_targets" (mask_targets L) ;;
  s <- read "selected_aug" (selected_aug L) ;;
  Ok (a, m, s, rng L).

(** [self.forward(imgs_w, imgs, masks, is_video)] *)
Definition forward (self : Augmenter) (imgs_w imgs : tensor)
           (masks : option tensor) (is_video : bool) (g : Generator)
  : result (tensor * option tensor * string * Generator) :=
  if training self then
    let '(mask_targets0, g0) :=
      embedder_call (mask_embedder self) imgs_w masks g in
    let imgs_aug0 :=
      add (mul imgs_w mask_targets0) (mul imgs (rsub 1 mask_targets0)) in
    steps <- Py.range 0 (num_augs self) 1 ;;
    L <- Py.for_each (forward_step self is_video) steps
      {| imgs_aug := Bound imgs_aug0;
         mask_targets := Bound (Some mask_targets0);
         selected_augs := Bound []; selected_aug_ := Unbound;
         selected_aug := Unbound; rng := g0 |} ;;
    names <- read "selected_augs" (selected_augs L) ;;
    forward_return
      {| imgs_aug := imgs_aug L; mask_targets := mask_targets L;
         selected_augs := selected_augs L;
         selected_aug_ := selected_aug_ L;
         selected_aug := Bound (Py.join "+" names); rng := rng L |}
  else
    let mask_targets0 := first_channel (ones_like imgs_w) in
    steps <- Py.range 0 (num_augs self) 1 ;;
    L <- Py.for_each (forward_step self is_video) steps
      {| imgs_aug := Unbound;
         mask_targets := Bound (Some mask_targets0);
         selected_augs := Bound []; selected_aug_ := Unbound;
         selected_aug := Unbound; rng := g |} ;;
    forward_return L.

(** [get_dummy_augmenter()]; [kind_none] is the dict [{'kind': None}]. *)
Definition get_dummy_augmenter (kind_none : masks_dict) : result Augmenter :=
  init kind_none [("identity", 1%Q)] [] 1.

End Augmenter.

End Augmentation.

(** ** [videoseal/augmentation/__init__.py]: the validation sets *)

Module Validation.
Import Augmentation.

(** The transformations that the validation sets instantiate, each built
    without arguments: the classes of the catalog, two more classes of the
    video module, and [Sequential(...)] of instances of catalog classes. *)
Inductive transform : Type :=
| Catalog (c : aug_class)
| H264rgb
| H265
| Sequential (parts : list aug_class).

(** A strength of a validation set: a number, or the tuple given to a
    [Sequential]. *)
Inductive strength : Type :=
| Number (q : Q)
| Tuple (qs : list Q).

(** [get_validation_augs_subset(is_video)] *)
Definition get_validation_augs_subset (is_video : bool)
  : list (transform * list strength) :=
  if is_video then
    [ (Catalog Identity, [Number 0]);
      (Catalog HorizontalFlip, [Number 0]);
      (Catalog Crop, [Number (71 # 100)]);
      (Catalog Brightness, [Number (5 # 10)]);
      (Catalog H264, [Number 40]);
      (Sequential [H264; Crop; Brightness],
       [Tuple [40; 71 # 100; 5 # 10]]) ]%Q
  else
    [ (Catalog Identity, [Number 0]);
      (Catalog HorizontalFlip, [Number 0]);
      (Catalog Crop, [Number (71 # 100)]);
      (Catalog Brightness, [Number (5 # 10)]);
      (Catalog JPEG, [Number 60]);
      (Sequential [JPEG; Crop; Brightness],
       [Tuple [60; 71 # 100; 5 # 10]]) ]%Q.

(** [get_validation_augs(is_video)] *)
Definition get_validation_augs (is_video : bool)
  : list (transform * list strength) :=
  if is_video then
    [ (Catalog Identity, [Number 0]);
      (Catalog HorizontalFlip, [Number 0]);
      (Catalog Rotate, [Number 10; Number 90]);
      (Catalog Resize, [Number (55 # 100); Number (71 # 100)]);
      (Catalog Crop, [Number (55 # 100); Number (71 # 100)]);
      (Catalog Perspective, [Number (5 # 10)]);
      (Catalog Brightness, [Number (5 # 10); Number (15 # 10)]);
      (Catalog Contrast, [Number (5 # 10); Number (15 # 10)]);
      (Catalog Saturation, [Number (5 # 10); Number (15 # 10)]);
      (Catalog Hue, [Number (25 # 100)]);
      (Catalog JPEG, [Number 40]);
      (Catalog GaussianBlur, [Number 9]);
      (Catalog MedianFilter, [Number 9]);
      (Catalog H264, [Number 30; Number 40; Number 50; Number 60]);
      (H264rgb, [Number 30; Number 40; Number 50; Number 60]);
      (H265, [Number 30; Number 40; Number 50]);
      (Sequential [H264; Crop; Brightness],
       [Tuple [30; 71 # 100; 5 # 10]]);
      (Sequential [H264; Crop; Brightness],
       [Tuple [40; 71 # 100; 5 # 10]]);
      (Sequential [H264; Crop; Brightness],
       [Tuple [50; 71 # 100; 5 # 10]]) ]%Q
  else
    [ (Catalog Identity, [Number 0]);
      (Catalog HorizontalFlip, [Number 0]);
      (Catalog Rotate, [Number 5; Number 10; Number 30; Number 45; Number 90]);
      (Catalog Resize,
       [Number (32 # 100); Number (45 # 100); Number (55 # 100);
        Number (63 # 100); Number (71 # 100); Number (77 # 100);
        Number (84 # 100); Number (89 # 100); Number (95 # 100);
        Number (100 # 100)]);
      (Catalog Crop,
       [Number (32 # 100); Number (45 # 100); Number (55 # 100);
        Number (63 # 100); Number (71 # 100); Number (77 # 100);
        Number (84 # 100); Number (89 # 100); Number (95 # 100);
        Number (100 # 100)]);
      (Catalog Perspective,
       [Number (1 # 10); Number (2 # 10); Number (3 # 10); Number (4 # 10);
        Number (5 # 10); Number (6 # 10); Number (7 # 10); Number (8 # 10)]);
      (Catalog Brightness,
       [Number (10 # 100); Number (25 # 100); Number (5 # 10);
        Number (75 # 100); Number (10 # 10); Number (125 # 100);
        Number (15 # 10); Number (175 # 100); Number (20 # 10)]);
      (Catalog Contrast,
       [Number (10 # 100); Number (25 # 100); Number (5 # 10);
        Number (75 # 100); Number (10 # 10); Number (125 # 100);
        Number (15 # 10); Number (175 # 100); Number (20 # 10)]);
      (Catalog Hue,
       [Number (-4 # 10); Number (-3 # 10); Number (-2 # 10);
        Number (-1 # 10); Number (0 # 10); Number (1 # 10); Number (2 # 10);
        Number (3 # 10); Number (4 # 10); Number (5 # 10)]);
      (Catalog JPEG,
       [Number 40; Number 50; Number 60; Number 70; Number 80; Number 90]);
      (Catalog GaussianBlur,
       [Number 3; Number 5; Number 9; Number 13; Number 17]);
      (Catalog MedianFilter,
       [Number 3; Number 5; Number 9; Number 13; Number 17]);
      (Sequential [JPEG; Crop; Brightness],
       [Tuple [40; 71 # 100; 5 # 10]]);
      (Sequential [JPEG; Crop; Brightness],
       [Tuple [60; 71 # 100; 5 # 10]]);
      (Sequential [JPEG; Crop; Brightness],
       [Tuple [80; 71 # 100; 5 # 10]]) ]%Q.

End Validation.

(** ** [inference_av.py]: the two routes *)

Module Server.
Import Torch InferenceAv.

(** What [ffmpeg.probe] and [VideoDecoder] find in an uploaded file. *)
Record media : Type := mkMedia {
  probed : result (Z * Z * Z);
  decoded : list frame
}.

(** The files that the routes put on disk: the upload saved as it came,
    the stream written by [embed_video], the output of the ffmpeg copy of
    that stream with the audio of the upload. *)
Inductive file : Type :=
| Saved (m : media)
| Encoded (frames : list frame)
| Muxed (video : list frame) (audio : media).

(** The disk: the file at each path, if any. *)
Definition disk : Type := string -> option file.

(** Writing a file at [path]. *)
Definition write (path : string) (f : file) (d : disk) : disk :=
  fun q => if String.eqb q path then Some f else d q.

(** [os.path.exists(path)] *)
Definition exists_ (d : disk) (path : string) : bool :=
  match d path with
  | Some _ => true
  | None => false
  end.

(** [os.remove(path)] on an existing file. *)
Definition remove (path : string) (d : disk) : disk :=
  fun q => if String.eqb q path then None else d q.

(** [if os.path.exists(path): os.remove(path)] *)
Definition remove_if_exists (path : string) (d : disk) : disk :=
  if exists_ d path then remove path d else d.

(** [os.remove(path)] on an existing file, on a system that refuses to
    remove the paths of [refused] (a file that is still open on Windows, a
    directory that may not be written): [None] stands for the [OSError]
    that [os.remove] raises then, with the disk left as it was. *)
Definition os_remove (refused : string -> bool) (path : string) (d : disk)
  : option disk :=
  if refused path then None else Some (remove path d).

(** The body of the loop in the [finally] block of [process_video_file]:
    [if os.path.exists(path):] [try: os.remove(path)]
    [except OSError: pass]. *)
Definition try_remove (refused : string -> bool) (path : string) (d : disk)
  : disk :=
  if exists_ d path then
    match os_remove refused path d with
    | Some d' => d'
    | None => d
    end
  else d.

(** An entry of [request.files]. *)
Record upload : Type := mkUpload {
  filename : string;
  content : media
}.

(** What a route answers with. *)
Inductive payload : Type :=
| Text (s : string)
| Json (extracted_bits : list score)
| Multipart (video : file) (message_bits : list Z).

Record response : Type := mkResponse {
  body : payload;
  status : Z
}.

Fixpoint ends_with_slash (s : string) : bool :=
  match s with
  | EmptyString => false
  | String c EmptyString => Ascii.eqb c "/"%char
  | String _ s' => ends_with_slash s'
  end.

(** [os.path.join(a, b)] for a non-empty [a] and a relative [b]. *)
Definition path_join (a b : string) : string :=
  if ends_with_slash a then (a ++ b)%string else (a ++ "/" ++ b)%string.

(** [os.path.join(here, f"{kind}{uid}.mp4")], where [here] is the directory
    of the module and [uid] a value of [uuid.uuid4()]. *)
Definition temp_path (here kind uid : string) : string :=
  path_join here (kind ++ uid ++ ".mp4")%string.

(** The body of [generate()]: [m.read(chunk_size)] again and again until it
    answers [b''].  [fuel] bounds the number of reads. *)
Fixpoint read_all {A} (chunk_size : nat) (fuel : nat) (m : list A)
  : list (list A) :=
  match fuel with
  | O => []
  | S fuel' =>
    match firstn chunk_size m with
    | [] => []
    | chunk => chunk :: read_all chunk_size fuel' (skipn chunk_size m)
    end
  end.

(** [generate()] on an encoder that still holds the bytes [m]: the chunks
    it yields.  One read more than there are bytes is enough fuel. *)
Definition generate {A} (m : list A) : list (list A) :=
  read_all 4096 (S (length m)) m.

Section Routes.

Variable model_embed : list float_frame -> message -> list float_frame * message.
Variable model_detect : list float_frame -> tensor2.

(** The ffmpeg process that copies the video stream of the watermarked
    file and the audio stream of the upload into a third file: its exit
    code, and whether it left a file behind when the code is not zero (a
    zero code comes with the file). *)
Variable ffmpeg_copy : list frame -> media -> Z * bool.

(** The paths that the system refuses to remove while
    [process_video_file] cleans up; the file that the response streams is
    still open then. *)
Variable refused : string -> bool.

(** [analyze_video_file()]: the answer and the disk afterwards.  [files]
    is [request.files], [uid] the value of [uuid.uuid4()]. *)
Definition analyze_video_file (files : list (string * upload))
           (here uid : string) (d : disk) : response * disk :=
  match Augmentation.lookup files "video" with
  | None => ({| body := Text "No video file uploaded"; status := 400 |}, d)
  | Some video_file =>
    if String.eqb (filename video_file) "" then
      ({| body := Text "No video file selected"; status := 400 |}, d)
    else
      let temp_input := temp_path here "temp_input_" uid in
      (* try *)
      let d1 := write temp_input (Saved (content video_file)) d in
      let outcome :=
        extracted_bits <-
          analyze_video model_detect (probed (content video_file))
                        (decoded (content video_file)) 8 ;;
        Ok {| body := Json extracted_bits; status := 200 |} in
      (* except Exception as e *)
      let answer :=
        match outcome with
        | Ok r => r
        | Raise e => {| body := Text (Py.str e); status := 500 |}
        end in
      (* finally *)
      (answer, remove_if_exists temp_input d1)
  end.

(** [process_video_file()]: the answer, or the exception that leaves the
    route, with the world after [embed_video]; and the disk afterwards.
    [uid1], [uid2], [uid3] are the three values of [uuid.uuid4()]. *)
Definition process_video_file (files : list (string * upload))
           (here uid1 uid2 uid3 : string) (w : world) (d : disk)
  : result (response * world) * disk :=
  match Augmentation.lookup files "video" with
  | None =>
    (Ok ({| body := Text "No video file uploaded"; status := 400 |}, w), d)
  | Some video_file =>
    if String.eqb (filename video_file) "" then
      (Ok ({| body := Text "No video file selected"; status := 400 |}, w), d)
    else
      let temp_input := temp_path here "temp_input_" uid1 in
      let temp_output := temp_path here "temp_output_" uid2 in
      let temp_output2 := temp_path here "temp_output2_" uid3 in
      (* try *)
      let d1 := write temp_input (Saved (content video_file)) d in
      let '(outcome, d3) :=
        match embed_video model_embed w (decoded (content video_file))
                          temp_output 8 with
        | Raise e => (Raise e, d1)
        | Ok (_, message_bits, frames, w') =>
          let d2 := write temp_output (Encoded frames) d1 in
          let '(combine_result, left_behind) :=
            ffmpeg_copy frames (content video_file) in
          let d3 :=
            if (combine_result =? 0) || left_behind
            then write temp_output2 (Muxed frames (content video_file)) d2
            else d2 in
          let video :=
            if combine_result =? 0
            then Muxed frames (content video_file)
            else Encoded frames in
          (Ok ({| body := Multipart video message_bits; status := 200 |}, w'),
           d3)
        end in
      (* finally *)
      (outcome,
       fold_left (fun d path => try_remove refused path d)
                 [temp_input; temp_output; temp_output2] d3)
  end.

End Routes.

End Server.

(** ** Notions used to state the properties *)

Module Notions.
Import Torch InferenceAv Augmentation.

(** Number of iterations of [range(0, n, step)] for a positive step. *)
Definition trips (n step : nat) : nat :=
  (n / step + (if (n mod step =? 0)%nat then 0 else 1))%nat.

(** The windows of width [step] at the offsets [0, step, 2 step, ...]. *)
Definition windows {A} (xs : list A) (step count : nat) : list (list A) :=
  map (fun k => firstn step (skipn (k * step) xs)) (seq 0 count).

(** The frames that one chunk contributes to the output stream. *)
Definition processed
           (model_embed : list float_frame -> message -> list float_frame * message)
           (m : message) (chunk : list frame) : list frame :=
  fst (fst (process_video_chunk model_embed [] chunk m)).

(** The rows that [model.detect] answers over the whole video, chunk
    after chunk. *)
Definition frame_predictions (model_detect : list float_frame -> tensor2)
           (chunks : list (list frame)) : list (list Q) :=
  concat (map (fun c => rows (model_detect (to_unit_range c))) chunks).

(** [t] is the number [v] rounded toward zero. *)
Definition rounds_toward_zero (v : Q) (t : Z) : Prop :=
  ((0 <= v)%Q -> (inject_Z t <= v)%Q /\ (v < inject_Z t + 1)%Q) /\
  ((v < 0)%Q -> (inject_Z t - 1 < v)%Q /\ (v <= inject_Z t)%Q).

(** [p] is the byte that the integer [t] wraps to. *)
Definition wraps_to (t p : Z) : Prop :=
  0 <= p < 256 /\ exists k, t = p + 256 * k.

(** How the byte [p] written for the value [v] (a model output times 255)
    relates to [v]: it is [v] rounded toward zero and wrapped, which is
    the rounded value itself for [-1 < v < 256] (so 0 for a [v] just below
    0 and 255 for a [v] from 255 up to 256, as a saturating conversion
    would give), the rounded value minus 256 for [256 <= v < 511] and the
    rounded value plus 256 for [-256 < v <= -1]. *)
Definition written_as (v : Q) (p : Z) : Prop :=
  exists t,
    rounds_toward_zero v t /\ wraps_to t p /\
    ((- (1) < v)%Q -> (v < 256)%Q -> p = t) /\
    ((- (1) < v)%Q -> (v < 0)%Q -> p = 0) /\
    ((255 <= v)%Q -> (v < 256)%Q -> p = 255) /\
    ((256 <= v)%Q -> (v < 511)%Q -> p = t - 256 /\ p < 255) /\
    ((- (256) < v)%Q -> (v <= - (1))%Q -> p = t + 256 /\ 0 < p).

(** A generator whose raw draws are the entries of [tape], in order. *)
Definition generator_of (tape : list Z) : Generator :=
  {| raw := fun k => nth k tape 0; pos := 0 |}.

(** All the tapes of [n] raw draws below [bound]: the outcomes, equally
    likely, of [n] draws of a generator that is uniform below [bound]. *)
Fixpoint tapes (n bound : nat) : list (list Z) :=
  match n with
  | O => [[]]
  | S n' =>
    flat_map (fun r => map (cons (Z.of_nat r)) (tapes n' bound)) (seq 0 bound)
  end.

Definition same_list (a b : list Z) : bool :=
  if list_eq_dec Z.eq_dec a b then true else false.

(** Whether a call of [embed_video] returned the message [target]. *)
Definition returns_message (target : list Z)
           (r : result (string * list Z * list frame * world)) : bool :=
  match r with
  | Ok (_, bits, _, _) => same_list bits target
  | Raise _ => false
  end.

(** The first key of the weight mapping that [name2aug] does not have. *)
Definition first_unknown (augs : list (string * Q)) : option string :=
  option_map fst
    (find (fun item =>
             match lookup name2aug (fst item) with
             | Some _ => false
             | None => true
             end) augs).

(** A weight mapping with a key outside the catalog, or with at least one
    item and weights that sum to zero. *)
Definition misconfigured (augs : list (string * Q)) : Prop :=
  first_unknown augs <> None \/
  (augs <> [] /\ (Qsum (map snd augs) == 0)%Q).

(** The runs of a validation set: each transformation with each of its
    strengths. *)
Definition runs (set : list (Validation.transform * list Validation.strength))
  : list (Validation.transform * Validation.strength) :=
  flat_map (fun entry => map (pair (fst entry)) (snd entry)) set.

(** A transformation of a validation set that is, or contains, a class of
    the video module. *)
Definition uses_video_codec (t : Validation.transform) : bool :=
  match t with
  | Validation.Catalog c => from_video_module c
  | Validation.H264rgb | Validation.H265 => true
  | Validation.Sequential parts => existsb from_video_module parts
  end.

Section Chains.
Context {T : Tensors} {C : Collaborators T}.

(** What one call of [augment] hands to the next one. *)
Definition carried (r : tensor * option tensor * string * Generator)
  : tensor * option tensor * Generator :=
  let '(a, m, _, g) := r in (a, m, g).

(** The label that one call of [augment] returns. *)
Definition label (r : tensor * option tensor * string * Generator) : string :=
  let '(_, _, name, _) := r in name.

(** [steps] are the results of successive calls of [augment] without
    shape restoration, the first on [s], each later one on the frames,
    mask and generator that the call before returned. *)
Fixpoint chained (self : Augmenter) (is_video : bool)
         (s : tensor * option tensor * Generator)
         (steps : list (tensor * option tensor * string * Generator)) : Prop :=
  match steps with
  | [] => True
  | r :: rest =>
    (let '(a, m, g) := s in augment self a m is_video false g = Ok r) /\
    chained self is_video (carried r) rest
  end.

(** What the last step carries, or [s] when there is no step. *)
Definition final (s : tensor * option tensor * Generator)
           (steps : list (tensor * option tensor * string * Generator))
  : tensor * option tensor * Generator :=
  fold_left (fun _ r => carried r) steps s.

(** The weights of an Augmenter from which torch can sample: one weight
    per transformation, none negative, not all zero. *)
Definition sampleable (self : Augmenter) : Prop :=
  length (augs self) = length (aug_probs self) /\
  has_negative (aug_probs self) = false /\
  ~ (Qsum (aug_probs self) == 0)%Q.

End Chains.

End Notions.

(** ** A small instance: clips of one colour *)

Module Synthetic.
Import Torch InferenceAv Augmentation.

(** A batch whose entries all have the same value, with its height and
    width. *)
Record flat : Type := mkFlat {
  flat_hw : nat * nat;
  level : Q
}.

#[export] Instance flat_tensors : Tensors.
Proof.
  refine {|
    tensor := flat;
    mul := fun a b => mkFlat (flat_hw a) (level a * level b);
    add := fun a b => mkFlat (flat_hw a) (level a + level b);
    rsub := fun c a => mkFlat (flat_hw a) (c - level a);
    ones_like := fun a => mkFlat (flat_hw a) 1;
    first_channel := fun a => a;
    shape_hw := flat_hw;
    interpolate := fun a size _ _ _ => mkFlat size (level a)
  |}.
  intros; reflexivity.
Defined.

(** [Resize] halves height and width, [H264] and
    [VideoCompressorAugmenter] darken the clip by one half, the other
    classes leave the clip as it is. *)
Definition flat_aug_forward (a : aug) (image : flat) (mask : option flat)
           (g : Generator) : flat * option flat * Generator :=
  match cls a with
  | Resize =>
    let half := fun t : flat =>
      mkFlat (Nat.div2 (fst (flat_hw t)), Nat.div2 (snd (flat_hw t)))
             (level t) in
    (half image, option_map half mask, g)
  | H264 | VideoCompressorAugmenter =>
    (mkFlat (flat_hw image) (level image / 2), mask, g)
  | _ => (image, mask, g)
  end.

(** The mask embedder answers the given mask, or ones. *)
Definition flat_embedder_call (_ : unit) (imgs_w : flat) (masks : option flat)
           (g : Generator) : flat * Generator :=
  (match masks with
   | Some m => m
   | None => mkFlat (flat_hw imgs_w) 1
   end, g).

#[export] Instance flat_collaborators : Collaborators flat_tensors :=
  @Build_Collaborators flat_tensors flat_aug_forward unit unit
                       (fun _ => tt) flat_embedder_call.

(** An Augmenter in training mode that picks [Identity] or [Resize] with
    equal weights, twice per call. *)
Definition two_steps : Augmenter :=
  {| mask_embedder := tt;
     augs := [mkAug Identity []; mkAug Resize []];
     aug_probs := [1 # 2; 1 # 2]%Q;
     num_augs := 2;
     training := true |}.

(** An Augmenter with the weights of the mapping
    [{'identity': 2, 'hflip': -1}]. *)
Definition skewed : Augmenter :=
  {| mask_embedder := tt;
     augs := [mkAug Identity []; mkAug HorizontalFlip []];
     aug_probs := [2 # 1; -1 # 1]%Q;
     num_augs := 1;
     training := true |}.

(** The same Augmenter with no step per call. *)
Definition no_steps : Augmenter :=
  {| mask_embedder := tt;
     augs := [mkAug Identity []; mkAug Resize []];
     aug_probs := [1 # 2; 1 # 2]%Q;
     num_augs := 0;
     training := true |}.

(** A white clip of 4 by 4 pixels and a grey one. *)
Definition white : flat := mkFlat (4, 4)%nat 1.
Definition grey : flat := mkFlat (4, 4)%nat (1 # 2).

(** An Augmenter with no transformation and no weight. *)
Definition empty_catalog : Augmenter :=
  {| mask_embedder := tt; augs := []; aug_probs := [];
     num_augs := 1; training := true |}.

(** A generator whose raw draws are all [2 ^ 52], the middle of the range
    that [uniform] reads. *)
Definition middle : Generator := {| raw := fun _ => 2 ^ 52; pos := 0 |}.

(** A generator whose [k]-th raw draw is [k]. *)
Definition counting : Generator := {| raw := Z.of_nat; pos := 0 |}.

(** A video of [n] frames of four grey pixels. *)
Definition grey_video (n : nat) : list frame := repeat [128; 128; 128; 128] n.

(** An embedder that returns the clip unchanged. *)
Definition keep : list float_frame -> message -> list float_frame * message :=
  fun clip m => (clip, m).

(** An embedder that answers one frame with the four entries 1001/1000,
    -1/1000, 257/255 and -2/255, all outside the unit range. *)
Definition overshoot : list float_frame -> message -> list float_frame * message :=
  fun _ m => ([[1001 # 1000; -1 # 1000; 257 # 255; -2 # 255]%Q], m).

(** A detector that answers, for every frame, the confidence 1 followed by
    the two soft bits 1/4 and 3/4. *)
Definition steady (clip : list float_frame) : tensor2 :=
  {| ncols := 3; rows := map (fun _ => [1; 1 # 4; 3 # 4]%Q) clip |}.

(** An upload of 20 grey frames, one without frames, and the request that
    carries a file under the name [a.mp4]. *)
Definition clip20 : Server.media :=
  {| Server.probed := Ok (2, 2, 20); Server.decoded := grey_video 20 |}.

Definition no_frames : Server.media :=
  {| Server.probed := Ok (2, 2, 0); Server.decoded := [] |}.

Definition request (m : Server.media) : list (string * Server.upload) :=
  [("video", {| Server.filename := "a.mp4"; Server.content := m |})].

(** A disk without files, and an ffmpeg that fails and leaves a partial
    file behind. *)
Definition empty_disk : Server.disk := fun _ => None.

Definition ffmpeg_fails : list frame -> Server.media -> Z * bool :=
  fun _ _ => (1, true).

End Synthetic.

(** * Properties *)

(** ** Loops, ranges and slices *)

Module PyFacts.
Import Notions.

Lemma for_each_total {S X} (f : S -> X -> S) (xs : list X) (s : S) :
  Py.for_each (fun s x => Ok (f s x)) xs s = Ok (fold_left f xs s).
Proof.
  revert s; induction xs as [|x xs IH]; intros s; simpl; auto.
Qed.

Lemma for_each_app {S X} (body : S -> X -> result S) xs ys (s : S) :
  Py.for_each body (xs ++ ys) s =
  Py.bind (Py.for_each body xs s) (Py.for_each body ys).
Proof.
  revert s; induction xs as [|x xs IH]; intros s; simpl; auto.
  destruct (body s x); simpl; auto.
Qed.

Lemma range_length_trips (n step : nat) :
  (0 < step)%nat ->
  Z.to_nat (Py.range_length 0 (Z.of_nat n) (Z.of_nat step)) = trips n step.
Proof.
  intros Hs. unfold Py.range_length, trips.
  assert (Hq := Nat.div_mod_eq n step).
  assert (Hr : (n mod step < step)%nat) by (apply Nat.mod_upper_bound; lia).
  destruct (Z.ltb_spec 0 (Z.of_nat step)); [|lia].
  destruct (Z.ltb_spec 0 (Z.of_nat n)) as [Hn|Hn].
  - replace (Z.of_nat n - 0 - 1) with (Z.of_nat (n - 1)) by lia.
    rewrite <- Nat2Z.inj_div.
    replace (Z.of_nat ((n - 1) / step) + 1)
      with (Z.of_nat ((n - 1) / step + 1)) by lia.
    rewrite Nat2Z.id.
    destruct (Nat.eqb_spec (n mod step) 0) as [E|E].
    + rewrite E in Hq.
      assert (Hpos : (0 < n / step)%nat) by (destruct (n / step)%nat; nia).
      assert ((n - 1) / step = n / step - 1)%nat; [|lia].
      symmetry. apply (Nat.div_unique _ _ _ (step - 1)); nia.
    + assert ((n - 1) / step = n / step)%nat; [|lia].
      symmetry. apply (Nat.div_unique _ _ _ (n mod step - 1)); nia.
  - assert (n = 0%nat) by lia; subst n.
    rewrite Nat.Div0.div_0_l, Nat.Div0.mod_0_l; reflexivity.
Qed.

Lemma range_step (n step : nat) :
  (0 < step)%nat ->
  Py.range 0 (Z.of_nat n) (Z.of_nat step) =
  Ok (map (fun k => Z.of_nat (k * step)) (seq 0 (trips n step))).
Proof.
  intros Hs. unfold Py.range.
  destruct (Z.eqb_spec (Z.of_nat step) 0); [lia|].
  rewrite range_length_trips by assumption.
  f_equal. apply map_ext. intros k. lia.
Qed.

Lemma slice_window {A} (xs : list A) (i len : nat) :
  Py.slice xs (Z.of_nat i) (Z.of_nat i + Z.of_nat len) =
  firstn len (skipn i xs).
Proof.
  unfold Py.slice, Py.slice_bound.
  destruct (Z.ltb_spec (Z.of_nat i) 0); [lia|].
  destruct (Z.ltb_spec (Z.of_nat i + Z.of_nat len) 0); [lia|].
  set (n := length xs).
  destruct (Nat.le_gt_cases i n) as [Hi|Hi].
  - replace (Z.to_nat (Z.max 0 (Z.min (Z.of_nat n) (Z.of_nat i)))) with i
      by lia.
    destruct (Nat.le_gt_cases (i + len) n) as [Hj|Hj].
    + f_equal. lia.
    + rewrite (firstn_all2 (n := len)) by (rewrite length_skipn; fold n; lia).
      apply firstn_all2. rewrite length_skipn; fold n; lia.
  - replace (Z.to_nat (Z.max 0 (Z.min (Z.of_nat n) (Z.of_nat i)))) with n
      by lia.
    rewrite (skipn_all2 (n := i)) by (fold n; lia).
    rewrite (skipn_all2 (n := n)) by (subst n; lia).
    rewrite !firstn_nil. reflexivity.
Qed.

Lemma firstn_plus {A} (a b : nat) (xs : list A) :
  firstn (a + b) xs = firstn a xs ++ firstn b (skipn a xs).
Proof.
  revert xs; induction a as [|a IH]; intros [|x xs]; simpl; auto.
  - now rewrite firstn_nil.
  - now rewrite IH.
Qed.

Lemma windows_concat {A} (xs : list A) (step count : nat) :
  concat (windows xs step count) = firstn (count * step) xs.
Proof.
  unfold windows. induction count as [|c IH].
  - reflexivity.
  - rewrite seq_S, map_app, concat_app, IH. simpl.
    rewrite app_nil_r.
    replace (step + c * step)%nat with (c * step + step)%nat by lia.
    apply eq_sym, firstn_plus.
Qed.

Lemma trips_cover (n step : nat) :
  (0 < step)%nat -> (n <= trips n step * step)%nat.
Proof.
  intros Hs. unfold trips.
  assert (Hq := Nat.div_mod_eq n step).
  assert (Hr : (n mod step < step)%nat) by (apply Nat.mod_upper_bound; lia).
  destruct (Nat.eqb_spec (n mod step) 0); nia.
Qed.

Lemma windows_partition {A} (xs : list A) (step : nat) :
  (0 < step)%nat ->
  concat (windows xs step (trips (length xs) step)) = xs.
Proof.
  intros Hs. rewrite windows_concat. apply firstn_all2.
  apply trips_cover; assumption.
Qed.

Lemma windows_lengths {A} (xs : list A) (step : nat) :
  (0 < step)%nat ->
  map (@length A) (windows xs step (trips (length xs) step)) =
  repeat step (length xs / step) ++
  (if (length xs mod step =? 0)%nat then [] else [(length xs mod step)%nat]).
Proof.
  intros Hs. unfold windows, trips. set (n := length xs).
  assert (Hq := Nat.div_mod_eq n step).
  assert (Hr : (n mod step < step)%nat) by (apply Nat.mod_upper_bound; lia).
  rewrite map_map, seq_app, map_app. f_equal.
  - transitivity (map (fun _ : nat => step) (seq 0 (n / step))).
    + apply map_ext_in. intros k Hk. apply in_seq in Hk.
      rewrite length_firstn, length_skipn. fold n. nia.
    + now rewrite map_const, length_seq.
  - destruct (Nat.eqb_spec (n mod step) 0) as [E|E]; simpl; auto.
    rewrite length_firstn, length_skipn. fold n. f_equal. nia.
Qed.

End PyFacts.

(** ** The pipeline of [inference_av.py] *)

Module InferenceFacts.
Import Torch InferenceAv Notions PyFacts.

Lemma decoder_chunks_windows (decoder : list frame) (step : nat) :
  (0 < step)%nat ->
  decoder_chunks decoder (Z.of_nat step) =
  Ok (windows decoder step (trips (length decoder) step)).
Proof.
  intros Hs. unfold decoder_chunks. rewrite range_step by assumption.
  simpl. f_equal. unfold windows. rewrite map_map.
  apply map_ext. intros k. apply slice_window.
Qed.

Lemma trips_ceiling (n step : nat) :
  (0 < step)%nat ->
  Z.of_nat (trips n step) =
  (Z.of_nat n + Z.of_nat step - 1) / Z.of_nat step.
Proof.
  intros Hs. unfold trips.
  assert (Hq := Nat.div_mod_eq n step).
  assert (Hr : (n mod step < step)%nat) by (apply Nat.mod_upper_bound; lia).
  destruct (Nat.eqb_spec (n mod step) 0) as [E|E].
  - apply (Z.div_unique_pos _ _ _ (Z.of_nat step - 1)); nia.
  - apply (Z.div_unique_pos _ _ _ (Z.of_nat (n mod step) - 1)); nia.
Qed.

Lemma fold_left_snoc {X Y} (f : X -> Y) (xs : list X) (acc : list Y) :
  fold_left (fun acc x => acc ++ [f x]) xs acc = acc ++ map f xs.
Proof.
  revert acc; induction xs as [|x xs IH]; intros acc; simpl.
  - now rewrite app_nil_r.
  - rewrite IH, <- app_assoc. reflexivity.
Qed.

Lemma length_concat_map {X Y} (f : list X -> list Y) (xss : list (list X)) :
  (forall xs, length (f xs) = length xs) ->
  length (concat (map f xss)) = length (concat xss).
Proof.
  intros Hf. induction xss as [|xs xss IH]; simpl; auto.
  rewrite !length_app, Hf, IH. reflexivity.
Qed.

Section Embed.
Variable model_embed : list float_frame -> message -> list float_frame * message.

Lemma process_video_chunk_eq lg chunk m :
  process_video_chunk model_embed lg chunk m =
  (processed model_embed m chunk,
   snd (model_embed (to_unit_range chunk) m),
   lg ++ [m]).
Proof.
  unfold processed, process_video_chunk.
  destruct (model_embed (to_unit_range chunk) m); reflexivity.
Qed.

Lemma processed_length m chunk :
  (forall clip m', length (fst (model_embed clip m')) = length clip) ->
  length (processed model_embed m chunk) = length chunk.
Proof.
  intros H. unfold processed, process_video_chunk.
  specialize (H (to_unit_range chunk) m).
  destruct (model_embed (to_unit_range chunk) m) as [imgs m'].
  cbn [fst] in *. rewrite length_map.
  etransitivity; [exact H|]. apply length_map.
Qed.

Lemma embed_loop_run decoder chunk_size m idxs st :
  Py.for_each
    (fun (st : embed_loop) i =>
       let frames := Py.slice decoder i (i + chunk_size) in
       let '(processed_frames, _, log') :=
         process_video_chunk model_embed (log st) frames (clone m) in
       Ok {| written := written st ++ processed_frames; log := log' |})
    idxs st =
  Ok {| written := written st ++
          concat (map (fun i => processed model_embed m
                                         (Py.slice decoder i (i + chunk_size)))
                      idxs);
        log := log st ++ repeat m (length idxs) |}.
Proof.
  revert st; induction idxs as [|i idxs IH]; intros [wr lg]; simpl.
  - now rewrite !app_nil_r.
  - rewrite process_video_chunk_eq. simpl. rewrite IH. simpl.
    rewrite <- !app_assoc. reflexivity.
Qed.

Lemma embed_video_run w decoder output_path chunk_size idxs :
  Py.range 0 (Z.of_nat (length decoder)) chunk_size = Ok idxs ->
  let m := fst (randint 0 2 1 96 (gen w)) in
  embed_video model_embed w decoder output_path chunk_size =
  Ok ((output_path, flatten_tolist m),
      concat (map (fun i => processed model_embed m
                                         (Py.slice decoder i (i + chunk_size)))
                  idxs),
      {| gen := advance 96 (gen w);
         embed_log := embed_log w ++ repeat m (length idxs) |}).
Proof.
  intros Hr m. unfold embed_video.
  change (randint 0 2 1 96 (gen w)) with (m, advance (1 * 96) (gen w)).
  cbv iota beta. rewrite Hr. cbn [Py.bind].
  rewrite embed_loop_run. reflexivity.
Qed.

End Embed.

Lemma decoder_chunks_inv decoder chunk_size chunks :
  decoder_chunks decoder chunk_size = Ok chunks ->
  exists idxs,
    Py.range 0 (Z.of_nat (length decoder)) chunk_size = Ok idxs /\
    chunks = map (fun i => Py.slice decoder i (i + chunk_size)) idxs.
Proof.
  unfold decoder_chunks.
  destruct (Py.range 0 (Z.of_nat (length decoder)) chunk_size) as [idxs|e];
    simpl; intros H; inversion H; subst.
  exists idxs; auto.
Qed.

Lemma decoder_chunks_defined decoder chunk_size :
  chunk_size <> 0 -> exists chunks, decoder_chunks decoder chunk_size = Ok chunks.
Proof.
  intros H. unfold decoder_chunks, Py.range.
  destruct (Z.eqb_spec chunk_size 0); [contradiction|].
  simpl. eexists; reflexivity.
Qed.

Lemma embed_video_chunks model_embed w decoder output_path chunk_size chunks :
  decoder_chunks decoder chunk_size = Ok chunks ->
  let m := fst (randint 0 2 1 96 (gen w)) in
  embed_video model_embed w decoder output_path chunk_size =
  Ok ((output_path, flatten_tolist m),
      concat (map (processed model_embed m) chunks),
      {| gen := advance 96 (gen w);
         embed_log := embed_log w ++ repeat m (length chunks) |}).
Proof.
  intros Hc m. destruct (@decoder_chunks_inv decoder chunk_size chunks Hc)
    as (idxs & Hr & ->).
  unfold m. rewrite (@embed_video_run model_embed w decoder output_path chunk_size idxs Hr).
  rewrite map_map, length_map. reflexivity.
Qed.

Lemma randint_message (g : Generator) :
  fst (randint 0 2 1 96 g) = [map (fun k => draw g k mod 2) (seq 0 96)].
Proof.
  unfold randint. cbn [fst seq map]. f_equal.
Qed.

Lemma nth_tl {A} (j : nat) (r : list A) (d : A) :
  nth j (tl r) d = nth (S j) r d.
Proof. destruct r; simpl; auto. destruct j; reflexivity. Qed.

Lemma mean_dim0_rows (K : nat) (rs : list (list Q)) :
  rs <> [] ->
  mean_dim0 {| ncols := K; rows := rs |} =
  map (fun j => Fin (Qsum (map (fun r => nth j r 0%Q) rs)
                     / inject_Z (Z.of_nat (length rs)))%Q)
      (seq 0 K).
Proof.
  intros Hne. unfold mean_dim0, column. cbn [ncols rows].
  destruct rs; [contradiction | reflexivity].
Qed.

Section Detect.
Variable model_detect : list float_frame -> tensor2.

Lemma analyze_video_chunks probe_val decoder chunk_size chunks :
  decoder_chunks decoder chunk_size = Ok chunks ->
  analyze_video model_detect (Ok probe_val) decoder chunk_size =
  Py.bind (cat (map (analyze_video_chunk model_detect) chunks))
          (fun all_msgs => Ok (mean_dim0 all_msgs)).
Proof.
  intros Hc.
  destruct (@decoder_chunks_inv decoder chunk_size chunks Hc)
    as (idxs & Hr & ->).
  unfold analyze_video. cbn [Py.bind]. rewrite Hr. cbn [Py.bind].
  rewrite (for_each_total
             (fun soft_msgs i => soft_msgs ++
                [analyze_video_chunk model_detect
                   (Py.slice decoder i (i + chunk_size))])).
  rewrite fold_left_snoc. cbn [app Py.bind]. rewrite map_map. reflexivity.
Qed.

Lemma cat_uniform (K : nat) (ts : list tensor2) :
  ts <> [] ->
  Forall (fun t => ncols t = K) ts ->
  cat ts = Ok {| ncols := K; rows := concat (map rows ts) |}.
Proof.
  intros Hne Hall. destruct ts as [|t ts]; [contradiction|].
  inversion Hall as [|? ? Ht Hts]; subst. unfold cat.
  replace (forallb (fun u => Nat.eqb (ncols u) (ncols t)) ts) with true.
  - reflexivity.
  - symmetry. apply forallb_forall. intros u Hu.
    rewrite Forall_forall in Hts. rewrite (Hts u Hu).
    apply Nat.eqb_refl.
Qed.

Lemma analyzed_rows chunks :
  concat (map rows (map (analyze_video_chunk model_detect) chunks)) =
  map (@tl Q) (frame_predictions model_detect chunks).
Proof.
  unfold frame_predictions. rewrite concat_map, !map_map. reflexivity.
Qed.

End Detect.

Lemma byte_wraps_above (v : Q) :
  (256 <= v)%Q -> (v < 511)%Q ->
  byte v = truncate v - 256 /\ 0 <= byte v < 255.
Proof.
  unfold byte, truncate, Qle, Qlt. destruct v as [n d]. cbn [Qnum Qden].
  intros H1 H2.
  assert (Hq : 256 <= Z.quot n (Z.pos d) < 511).
  { rewrite Z.quot_div_nonneg by lia. split.
    - apply Z.div_le_lower_bound; lia.
    - apply Z.div_lt_upper_bound; lia. }
  split.
  - symmetry. apply (Z.mod_unique_pos _ _ 1); lia.
  - assert (E : Z.quot n (Z.pos d) mod 256 = Z.quot n (Z.pos d) - 256)
      by (symmetry; apply (Z.mod_unique_pos _ _ 1); lia).
    lia.
Qed.

Lemma byte_wraps_below (v : Q) :
  (- (256) < v)%Q -> (v <= - (1))%Q ->
  byte v = truncate v + 256 /\ 0 < byte v <= 255.
Proof.
  unfold byte, truncate, Qle, Qlt, Qopp. destruct v as [n d].
  cbn [Qnum Qden Z.opp]. intros H1 H2.
  assert (Hq : -256 < Z.quot n (Z.pos d) <= -1).
  { replace n with (- (- n)) by lia. rewrite Z.quot_opp_l by lia.
    rewrite Z.quot_div_nonneg by lia.
    assert (1 <= (- n) / Z.pos d) by (apply Z.div_le_lower_bound; lia).
    assert ((- n) / Z.pos d < 256) by (apply Z.div_lt_upper_bound; lia).
    lia. }
  assert (E : Z.quot n (Z.pos d) mod 256 = Z.quot n (Z.pos d) + 256)
    by (symmetry; apply (Z.mod_unique_pos _ _ (-1)); lia).
  lia.
Qed.

Lemma truncate_rounds (v : Q) : rounds_toward_zero v (truncate v).
Proof.
  unfold rounds_toward_zero, truncate, Qle, Qlt, Qplus, Qminus, Qopp, inject_Z.
  destruct v as [n d]. cbn [Qnum Qden Z.opp Pos.mul]. split; intros H.
  - rewrite Z.quot_div_nonneg by lia.
    assert (Hd := Z.div_mod n (Z.pos d) ltac:(lia)).
    assert (Hm := Z.mod_pos_bound n (Z.pos d) ltac:(lia)).
    set (q := n / Z.pos d) in *. set (r := n mod Z.pos d) in *.
    clearbody q r. nia.
  - assert (E : Z.quot n (Z.pos d) = - ((- n) / Z.pos d)).
    { replace n with (- (- n)) at 1 by lia. rewrite Z.quot_opp_l by lia.
      rewrite Z.quot_div_nonneg by lia. reflexivity. }
    rewrite E.
    assert (Hd := Z.div_mod (- n) (Z.pos d) ltac:(lia)).
    assert (Hm := Z.mod_pos_bound (- n) (Z.pos d) ltac:(lia)).
    set (q := (- n) / Z.pos d) in *. set (r := (- n) mod Z.pos d) in *.
    clearbody q r. clear E. unfold Qplus, Qopp.
    cbn [Qnum Qden Z.opp Pos.mul]. nia.
Qed.

Lemma byte_keeps_near (v : Q) :
  (- (1) < v)%Q -> (v < 256)%Q ->
  byte v = truncate v /\
  ((v < 0)%Q -> byte v = 0) /\ ((255 <= v)%Q -> byte v = 255).
Proof.
  unfold byte, truncate, Qle, Qlt, Qopp. destruct v as [n d].
  cbn [Qnum Qden Z.opp]. intros H1 H2.
  destruct (Z.lt_ge_cases n 0) as [Hn|Hn].
  - assert (E : Z.quot n (Z.pos d) = 0).
    { replace n with (- (- n)) by lia. rewrite Z.quot_opp_l by lia.
      rewrite Z.quot_div_nonneg by lia. rewrite Z.div_small by lia.
      reflexivity. }
    rewrite E. cbn. repeat split; intros; lia.
  - rewrite Z.quot_div_nonneg by lia.
    assert (Hq : 0 <= n / Z.pos d < 256).
    { split; [apply Z.div_pos; lia | apply Z.div_lt_upper_bound; lia]. }
    rewrite Z.mod_small by lia. split; [reflexivity|]. split; intros H.
    + lia.
    + assert (255 <= n / Z.pos d) by (apply Z.div_le_lower_bound; lia). lia.
Qed.

Lemma byte_written_as (v : Q) : written_as v (byte v).
Proof.
  exists (truncate v). split; [apply truncate_rounds|]. split.
  { split; [apply Z.mod_pos_bound; lia|].
    exists (truncate v / 256). unfold byte.
    rewrite Z.add_comm. apply Z.div_mod. lia. }
  split; [intros H1 H2; apply (byte_keeps_near H1 H2)|].
  split.
  { intros H1 H2. apply (byte_keeps_near H1); [lra | exact H2]. }
  split.
  { intros H1 H2. apply byte_keeps_near; [lra | exact H2 | exact H1]. }
  split.
  - intros H1 H2. destruct (byte_wraps_above H1 H2) as [E B].
    split; [exact E | lia].
  - intros H1 H2. destruct (byte_wraps_below H1 H2) as [E B].
    split; [exact E | lia].
Qed.

Lemma Forall2_map_left {X Y} (R : Y -> X -> Prop) (f : X -> Y) (l : list X) :
  (forall x, R (f x) x) -> Forall2 R (map f l) l.
Proof.
  intros H. induction l as [|x l IH]; cbn [map]; constructor; auto.
Qed.

(** C10, as the code has it.  [process_video_chunk] converts every entry
    [y] that [model.embed] returns to the byte of [y * 255] with no
    clamping in between: the value rounded toward zero and wrapped modulo
    256.  An entry far enough outside the unit range wraps instead of
    saturating (minus 256 for [256 <= 255 y < 511], plus 256 for
    [-256 < 255 y <= -1]); an entry just outside it ([-1 < 255 y < 0] or
    [255 <= 255 y < 256]) is written as 0 or 255, the same as the
    saturated value. *)
Theorem process_video_chunk_wraps_bytes
    (model_embed : list float_frame -> message -> list float_frame * message)
    (lg : list message) (chunk : list frame) (m : message) :
  Forall2 (Forall2 (fun p y => written_as (y * 255) p))
          (fst (fst (process_video_chunk model_embed lg chunk m)))
          (fst (model_embed (to_unit_range chunk) m)).
Proof.
  unfold process_video_chunk.
  destruct (model_embed (to_unit_range chunk) m) as [imgs_w m'].
  cbn [fst]. apply Forall2_map_left. intros fr.
  apply Forall2_map_left. intros y. apply byte_written_as.
Qed.

(** A frame with the entries 1001/1000, -1/1000, 257/255 and -2/255 is
    written as 255, 0, 1 and 254. *)
Lemma process_video_chunk_wraps_bytes_witness :
  fst (fst (process_video_chunk Synthetic.overshoot [] [[7; 7; 7; 7]] [])) =
    [[255; 0; 1; 254]] /\
  Forall2 (Forall2 (fun p y => written_as (y * 255) p))
          [[255; 0; 1; 254]]
          [[1001 # 1000; -1 # 1000; 257 # 255; -2 # 255]%Q].
Proof.
  split; [reflexivity|].
  exact (@process_video_chunk_wraps_bytes
           Synthetic.overshoot [] [[7; 7; 7; 7]] []).
Defined.

(** Two outputs outside the unit range, 1001/1000 and -1/1000, are
    written as 255 and 0: the bytes that saturation would give. *)
Lemma process_video_chunk_saturates_near_range :
  (1 < 1001 # 1000)%Q /\ (-1 # 1000 < 0)%Q /\
  fst (Synthetic.overshoot (to_unit_range [[7; 7; 7; 7]]) []) =
    [[1001 # 1000; -1 # 1000; 257 # 255; -2 # 255]%Q] /\
  exists rest,
    fst (fst (process_video_chunk Synthetic.overshoot [] [[7; 7; 7; 7]] [])) =
    [255 :: 0 :: rest].
Proof.
  split; [reflexivity|]. split; [reflexivity|]. split; [reflexivity|].
  eexists. reflexivity.
Qed.

(** C2.  For a video of [n] frames and a chunk size [N >= 1], the loop of
    [embed_video] takes [ceil(n / N)] consecutive slices that together
    are the video in temporal order; each slice has [N] frames except a
    shorter last one when [N] does not divide [n]; the stream receives
    the processed slices in that order, one output frame per input frame
    (given that [model.embed] answers with as many frames as it gets), so
    the output has [n] frames.  For 20 frames and chunks of 8 the slices
    have 8, 8 and 4 frames and the output has 20 frames. *)
Theorem embed_video_partitions_frames
    (model_embed : list float_frame -> message -> list float_frame * message)
    (w : world) (decoder : list frame)
    (output_path : string) (chunk_size : Z) :
  1 <= chunk_size ->
  (forall clip m, length (fst (model_embed clip m)) = length clip) ->
  let n := length decoder in
  let N := Z.to_nat chunk_size in
  exists chunks bits out w',
    decoder_chunks decoder chunk_size = Ok chunks /\
    concat chunks = decoder /\
    Z.of_nat (length chunks) = (Z.of_nat n + chunk_size - 1) / chunk_size /\
    map (@length frame) chunks =
      repeat N (n / N) ++ (if (n mod N =? 0)%nat then [] else [(n mod N)%nat]) /\
    embed_video model_embed w decoder output_path chunk_size =
      Ok ((output_path, bits), out, w') /\
    out = concat (map (processed model_embed
                                 (fst (randint 0 2 1 96 (gen w)))) chunks) /\
    map (@length frame)
        (map (processed model_embed (fst (randint 0 2 1 96 (gen w))))
             chunks) = map (@length frame) chunks /\
    length out = n /\
    (n = 20%nat -> chunk_size = 8 ->
     map (@length frame) chunks = [8; 8; 4]%nat /\ length out = 20%nat).
Proof.
  intros Hcs Hshape n N.
  assert (HN : (0 < N)%nat) by (unfold N; lia).
  assert (Ecs : chunk_size = Z.of_nat N) by (unfold N; lia).
  assert (Hc := @decoder_chunks_windows decoder N HN). rewrite <- Ecs in Hc.
  set (chunks := windows decoder N (trips (length decoder) N)) in *.
  assert (Hlen : map (@length frame) chunks =
            repeat N (n / N) ++
            (if (n mod N =? 0)%nat then [] else [(n mod N)%nat]))
    by (apply windows_lengths; assumption).
  assert (Hout : length (concat (map (processed model_embed
                   (fst (randint 0 2 1 96 (gen w)))) chunks)) = n).
  { rewrite length_concat_map.
    - unfold chunks. rewrite windows_partition by assumption. reflexivity.
    - intros xs. apply processed_length. assumption. }
  exists chunks. eexists. eexists. eexists.
  split; [exact Hc|].
  split; [apply windows_partition; assumption|].
  split.
  { unfold chunks, windows. rewrite length_map, length_seq.
    rewrite Ecs. apply trips_ceiling. assumption. }
  split; [exact Hlen|].
  split; [apply (@embed_video_chunks model_embed w decoder output_path
                                     chunk_size chunks Hc)|].
  split; [reflexivity|].
  split.
  { rewrite map_map. apply map_ext. intros c.
    apply processed_length. assumption. }
  split; [exact Hout|].
  intros Hn H8. split.
  - rewrite Hlen. replace N with 8%nat by lia. rewrite Hn. reflexivity.
  - rewrite Hout. exact Hn.
Qed.

(** Every sequence of 96 bits is the message of some generator: the
    reduction of the raw draws to bits loses no message. *)
Lemma randint_reaches_every_message (target : list Z) :
  length target = 96%nat ->
  Forall (fun b => b = 0 \/ b = 1) target ->
  exists g, fst (randint 0 2 1 96 g) = [target].
Proof.
  intros Hlen Hbits.
  exists {| raw := fun k => nth k target 0; pos := 0 |}.
  rewrite randint_message. f_equal.
  apply (nth_ext _ _ 0 0).
  - now rewrite length_map, length_seq.
  - intros k Hk. rewrite length_map, length_seq in Hk.
    rewrite (nth_indep _ 0 ((fun j => draw {| raw := fun i => nth i target 0;
                                               pos := 0 |} j mod 2) 0%nat))
      by (rewrite length_map, length_seq; exact Hk).
    rewrite (map_nth (fun j => draw {| raw := fun i => nth i target 0;
                                       pos := 0 |} j mod 2)).
    rewrite seq_nth by exact Hk. unfold draw. cbn [raw pos Nat.add].
    rewrite Forall_forall in Hbits.
    destruct (Hbits (nth k target 0)) as [E|E].
    + apply nth_In. lia.
    + rewrite E. reflexivity.
    + rewrite E. reflexivity.
Qed.

Lemma tapes_length (n bound : nat) (tape : list Z) :
  In tape (tapes n bound) -> length tape = n.
Proof.
  revert tape. induction n as [|n IH]; intros tape H; cbn [tapes] in H.
  - destruct H as [<-|[]]. reflexivity.
  - apply in_flat_map in H. destruct H as (r & _ & H).
    apply in_map_iff in H. destruct H as (t & <- & Ht).
    cbn [length]. now rewrite (IH t Ht).
Qed.

Lemma flat_map_count {X Y} (F : X -> list Y) (c : nat) (l : list X) :
  (forall x, In x l -> length (F x) = c) ->
  length (flat_map F l) = (length l * c)%nat.
Proof.
  induction l as [|x l IH]; intros H; [reflexivity|].
  cbn [flat_map length]. rewrite length_app, IH.
  - rewrite (H x) by (cbn; auto). reflexivity.
  - intros y Hy. apply H. cbn; auto.
Qed.

Lemma tapes_total (n bound : nat) :
  length (tapes n bound) = (bound ^ n)%nat.
Proof.
  induction n as [|n IH]; [reflexivity|].
  cbn [tapes Nat.pow].
  rewrite (@flat_map_count _ _ _ (bound ^ n)%nat), length_seq; [reflexivity|].
  intros r _. now rewrite length_map.
Qed.

Lemma map_nth_seq {X Y} (f : X -> Y) (d : X) (l : list X) :
  map (fun k => f (nth k l d)) (seq 0 (length l)) = map f l.
Proof.
  induction l as [|a l IH]; [reflexivity|].
  cbn [length seq map nth]. f_equal.
  rewrite <- seq_shift, map_map. exact IH.
Qed.

Lemma parity_count (b : Z) (M : nat) :
  b = 0 \/ b = 1 ->
  length (filter (fun r => Z.eqb (Z.of_nat r mod 2) b) (seq 0 (2 * M))) = M.
Proof.
  intros Hb. induction M as [|M IH]; [reflexivity|].
  replace (2 * S M)%nat with (2 * M + 2)%nat by lia.
  rewrite seq_app, filter_app, length_app, IH. cbn [seq filter Nat.add].
  assert (E0 : Z.of_nat (2 * M) mod 2 = 0).
  { rewrite Nat2Z.inj_mul, Z.mul_comm. apply Z.mod_mul. lia. }
  assert (E1 : Z.of_nat (S (2 * M)) mod 2 = 1).
  { rewrite Nat2Z.inj_succ, Nat2Z.inj_mul. unfold Z.succ.
    rewrite Z.add_comm, Z.mul_comm, Z.mod_add by lia. reflexivity. }
  rewrite E0, E1. destruct Hb as [-> | ->]; cbn; lia.
Qed.

Lemma filter_flat_map_count {X Y} (P : Y -> bool) (F : X -> list Y)
      (q : X -> bool) (c : nat) (l : list X) :
  (forall x, length (filter P (F x)) = if q x then c else 0%nat) ->
  length (filter P (flat_map F l)) = (length (filter q l) * c)%nat.
Proof.
  intros H. induction l as [|x l IH]; [reflexivity|].
  cbn [flat_map filter]. rewrite filter_app, length_app, IH, H.
  destruct (q x); cbn [length]; lia.
Qed.

Lemma filter_map_cons_count (P : list Z -> bool) (r : Z) (T : list (list Z)) :
  length (filter P (map (cons r) T)) =
  length (filter (fun t => P (r :: t)) T).
Proof.
  induction T as [|t T IH]; [reflexivity|].
  cbn [map filter]. destruct (P (r :: t)); cbn [length]; now rewrite IH.
Qed.

Lemma same_list_cons (a b : Z) (x y : list Z) :
  same_list (a :: x) (b :: y) = Z.eqb a b && same_list x y.
Proof.
  unfold same_list.
  destruct (list_eq_dec Z.eq_dec (a :: x) (b :: y)) as [E|E].
  - inversion E; subst. rewrite Z.eqb_refl.
    destruct (list_eq_dec Z.eq_dec y y); [reflexivity | contradiction].
  - destruct (Z.eqb_spec a b) as [->|]; [|reflexivity].
    destruct (list_eq_dec Z.eq_dec x y) as [->|]; [contradiction | reflexivity].
Qed.

(** Of the [(2 M) ^ n] tapes of [n] raw draws below [2 M], exactly
    [M ^ n] reduce to any given sequence of [n] bits. *)
Lemma parity_tapes_count (M : nat) (target : list Z) :
  Forall (fun b => b = 0 \/ b = 1) target ->
  length (filter (fun tape => same_list (map (fun r => r mod 2) tape) target)
                 (tapes (length target) (2 * M)))
  = (M ^ length target)%nat.
Proof.
  induction 1 as [|b target Hb _ IH]; [reflexivity|].
  cbn [length tapes Nat.pow].
  rewrite (@filter_flat_map_count _ _ _ _
             (fun r => Z.eqb (Z.of_nat r mod 2) b) (M ^ length target)%nat).
  - now rewrite (@parity_count b M Hb).
  - intros r. rewrite filter_map_cons_count.
    destruct (Z.eqb (Z.of_nat r mod 2) b) eqn:E.
    + rewrite <- IH. f_equal. apply filter_ext. intros t.
      cbn [map]. rewrite same_list_cons, E. reflexivity.
    + rewrite (filter_ext _ (fun _ => false)).
      * clear. induction (tapes (length target) (2 * M)); auto.
      * intros t. cbn [map]. rewrite same_list_cons, E. reflexivity.
Qed.

(** C3.  One call of [embed_video] draws one message of 96 entries from
    the generator before the loop and nothing more: entry [k] is the
    parity of the [k]-th raw draw, hence 0 or 1.  Every chunk is written as
    the answer of [model.embed] on that chunk and on a tensor with the
    entries of that one message, whatever [model.embed] wrote into the
    tensors of earlier calls, and the list handed back to the caller is
    that message.  The message is uniform: of the [(2 M) ^ 96] equally
    likely tapes of 96 raw draws below [2 M], exactly [M ^ 96] make the
    call return any given sequence of 96 bits, so every sequence has
    probability [1 / 2 ^ 96], which is to say that the bits are
    independent and each is 0 or 1 with probability one half. *)
Theorem embed_video_single_message
    (model_embed : list float_frame -> message -> list float_frame * message)
    (w : world) (decoder : list frame)
    (output_path : string) (chunk_size : Z) :
  chunk_size <> 0 ->
  exists bits chunks out w',
    bits = map (fun k => draw (gen w) k mod 2) (seq 0 96) /\
    length bits = 96%nat /\
    Forall (fun b => b = 0 \/ b = 1) bits /\
    decoder_chunks decoder chunk_size = Ok chunks /\
    embed_video model_embed w decoder output_path chunk_size =
      Ok ((output_path, bits), out, w') /\
    gen w' = advance 96 (gen w) /\
    embed_log w' = embed_log w ++ repeat [bits] (length chunks) /\
    out = concat (map (processed model_embed [bits]) chunks) /\
    out = concat (map (fun chunk =>
                         map (map (fun x => byte (x * 255)%Q))
                             (fst (model_embed (to_unit_range chunk) [bits])))
                      chunks) /\
    (forall (M : nat) (target : list Z),
        length target = 96%nat ->
        Forall (fun b => b = 0 \/ b = 1) target ->
        length (tapes 96 (2 * M)) = ((2 * M) ^ 96)%nat /\
        length (filter
                  (fun tape =>
                     returns_message target
                       (embed_video model_embed
                          {| gen := generator_of tape;
                             embed_log := embed_log w |}
                          decoder output_path chunk_size))
                  (tapes 96 (2 * M)))
        = (M ^ 96)%nat).
Proof.
  intros Hcs.
  destruct (@decoder_chunks_defined decoder chunk_size Hcs) as [chunks Hc].
  exists (map (fun k => draw (gen w) k mod 2) (seq 0 96)), chunks.
  eexists. eexists.
  split; [reflexivity|].
  split; [now rewrite length_map, length_seq|].
  split.
  { apply Forall_forall. intros b Hb. apply in_map_iff in Hb.
    destruct Hb as (k & <- & _).
    assert (0 <= draw (gen w) k mod 2 < 2) by (apply Z.mod_pos_bound; lia).
    lia. }
  split; [exact Hc|].
  rewrite (@embed_video_chunks model_embed w decoder output_path
                               chunk_size chunks Hc).
  rewrite randint_message.
  unfold flatten_tolist. cbn [concat]. rewrite app_nil_r.
  split; [reflexivity|]. split; [reflexivity|]. split; [reflexivity|].
  split; [reflexivity|]. split.
  { f_equal. apply map_ext. intros chunk.
    unfold processed, process_video_chunk.
    destruct (model_embed (to_unit_range chunk)
                [map (fun k => draw (gen w) k mod 2) (seq 0 96)]);
      reflexivity. }
  intros M target Hlen Hbits. split; [apply tapes_total|].
  rewrite <- Hlen at 2. rewrite <- (@parity_tapes_count M target Hbits), Hlen.
  f_equal. apply filter_ext_in. intros tape Htape.
  apply tapes_length in Htape.
  rewrite (@embed_video_chunks model_embed
             {| gen := generator_of tape; embed_log := embed_log w |}
             decoder output_path chunk_size chunks Hc).
  cbn [returns_message gen]. rewrite randint_message.
  unfold flatten_tolist. cbn [concat]. rewrite app_nil_r.
  f_equal. rewrite <- Htape.
  apply (@map_nth_seq _ _ (fun r => r mod 2) 0 tape).
Qed.

(** C1.  For a video with at least one frame and a chunk size of at
    least 1, [analyze_video] runs [model.detect] on the consecutive
    slices of the video in temporal order, drops the first column of each
    answer, stacks the remaining columns over all frames and returns, for
    every remaining bit position [j], the sum over all frames of the
    prediction at column [j + 1] divided by the number of frames: a
    finite value, not rounded to a bit.  ([model.detect] answers one row
    of [K + 1] predictions per frame.) *)
Theorem analyze_video_mean_of_frames
    (model_detect : list float_frame -> tensor2)
    (probe_val : Z * Z * Z) (decoder : list frame) (chunk_size : Z)
    (K : nat) :
  decoder <> [] ->
  1 <= chunk_size ->
  (forall clip, ncols (model_detect clip) = S K /\
                length (rows (model_detect clip)) = length clip) ->
  exists chunks,
    decoder_chunks decoder chunk_size = Ok chunks /\
    concat chunks = decoder /\
    length (frame_predictions model_detect chunks) = length decoder /\
    analyze_video model_detect (Ok probe_val) decoder chunk_size =
    Ok (map (fun j =>
               Fin (Qsum (map (fun r => nth (S j) r 0%Q)
                              (frame_predictions model_detect chunks))
                    / inject_Z (Z.of_nat (length decoder)))%Q)
            (seq 0 K)).
Proof.
  intros Hne Hcs Hdet.
  set (N := Z.to_nat chunk_size).
  assert (HN : (0 < N)%nat) by (unfold N; lia).
  assert (Ecs : chunk_size = Z.of_nat N) by (unfold N; lia).
  assert (Hc := @decoder_chunks_windows decoder N HN). rewrite <- Ecs in Hc.
  set (chunks := windows decoder N (trips (length decoder) N)) in *.
  assert (Hpart : concat chunks = decoder)
    by (apply windows_partition; assumption).
  assert (Hrows : length (frame_predictions model_detect chunks) =
                  length decoder).
  { unfold frame_predictions.
    transitivity (length (concat chunks)); [|now rewrite Hpart].
    apply (length_concat_map
             (fun c => rows (model_detect (to_unit_range c)))).
    intros c. destruct (Hdet (to_unit_range c)) as [_ ->].
    unfold to_unit_range. apply length_map. }
  exists chunks. repeat split; auto.
  rewrite (@analyze_video_chunks model_detect probe_val decoder chunk_size
                                 chunks Hc).
  rewrite (@cat_uniform K).
  - cbn [Py.bind]. f_equal. rewrite analyzed_rows.
    rewrite mean_dim0_rows.
    + apply map_ext. intros j. rewrite length_map, Hrows, map_map.
      do 3 f_equal. apply map_ext. intros r. apply nth_tl.
    + intros Hnil. apply (f_equal (@length _)) in Hnil.
      rewrite length_map, Hrows in Hnil.
      destruct decoder; [contradiction | discriminate].
  - intros Hnil. apply map_eq_nil in Hnil. rewrite Hnil in Hpart.
    apply Hne. symmetry. exact Hpart.
  - apply Forall_forall. intros t Ht. apply in_map_iff in Ht.
    destruct Ht as (c & <- & _). unfold analyze_video_chunk. cbn [ncols drop_first_column].
    destruct (Hdet (to_unit_range c)) as [-> _]. reflexivity.
Qed.

(** C4, as the code has it.  On a video without frames [analyze_video]
    always raises, so it returns no value and in particular no NaN; it
    has no emptiness check of its own: a failed probe is passed on, a
    zero chunk size is refused by [range], and otherwise the loop body
    never runs and [torch.cat] refuses the empty list of predictions
    with its [RuntimeError]. *)
Theorem analyze_video_zero_frames_raises
    (model_detect : list float_frame -> tensor2)
    (probe : result (Z * Z * Z)) (chunk_size : Z) :
  analyze_video model_detect probe [] chunk_size =
  match probe with
  | Raise e => Raise e
  | Ok _ =>
    if chunk_size =? 0
    then Raise (ValueError "range() arg 3 must not be zero")
    else Raise (RuntimeError
                  "torch.cat(): expected a non-empty list of Tensors")
  end
  /\ Py.raises (analyze_video model_detect probe [] chunk_size).
Proof.
  assert (E : analyze_video model_detect probe [] chunk_size =
    match probe with
    | Raise e => Raise e
    | Ok _ =>
      if chunk_size =? 0
      then Raise (ValueError "range() arg 3 must not be zero")
      else Raise (RuntimeError
                    "torch.cat(): expected a non-empty list of Tensors")
    end).
  { unfold analyze_video. destruct probe as [v|e]; [|reflexivity].
    cbn [Py.bind]. unfold Py.range.
    destruct (chunk_size =? 0); [reflexivity|].
    replace (Py.range_length 0 (Z.of_nat (@length frame [])) chunk_size)
      with 0.
    - reflexivity.
    - unfold Py.range_length. cbn [length Z.of_nat].
      destruct (0 <? chunk_size); reflexivity. }
  split; [exact E|].
  rewrite E. unfold Py.raises.
  destruct probe; [destruct (chunk_size =? 0)|]; eexists; reflexivity.
Qed.

(** On the empty video the exception is the one of [torch.cat], whose
    class is not [EmptyVideoError]. *)
Lemma analyze_video_zero_frames_not_EmptyVideoError :
  analyze_video Synthetic.steady (Ok (2, 2, 0)) [] 8 =
    Raise (RuntimeError "torch.cat(): expected a non-empty list of Tensors")
  /\ ~ (exists e, analyze_video Synthetic.steady (Ok (2, 2, 0)) [] 8 = Raise e
                  /\ Py.exn_class e = "EmptyVideoError").
Proof.
  split; [reflexivity|].
  intros (e & He & Hc). cbv in He. inversion He; subst e. discriminate Hc.
Qed.

(** A video of 20 grey frames, read in chunks of 8. *)
Lemma embed_video_partitions_frames_witness :
  exists chunks bits out w',
    decoder_chunks (Synthetic.grey_video 20) 8 = Ok chunks /\
    concat chunks = Synthetic.grey_video 20 /\
    map (@length frame) chunks = [8; 8; 4]%nat /\
    embed_video Synthetic.keep
                {| gen := Synthetic.counting; embed_log := [] |}
                (Synthetic.grey_video 20) "out.mp4" 8 =
      Ok (("out.mp4", bits), out, w') /\
    length out = 20%nat.
Proof.
  destruct (@embed_video_partitions_frames
              Synthetic.keep
              {| gen := Synthetic.counting; embed_log := [] |}
              (Synthetic.grey_video 20) "out.mp4" 8)
    as (chunks & bits & out & w' & H1 & H2 & _ & _ & H5 & _ & _ & _ & H9).
  - lia.
  - intros clip m. reflexivity.
  - exists chunks, bits, out, w'.
    destruct H9 as [H9 H10]; [reflexivity | reflexivity |].
    repeat split; assumption.
Defined.

Lemma embed_video_single_message_witness :
  exists bits (chunks : list (list frame)) out w',
    length bits = 96%nat /\
    embed_video Synthetic.keep
                {| gen := Synthetic.counting; embed_log := [] |}
                (Synthetic.grey_video 20) "out.mp4" 8 =
      Ok (("out.mp4", bits), out, w') /\
    embed_log w' = repeat [bits] (length chunks) /\
    out = concat (map (fun chunk =>
                         map (map (fun x => byte (x * 255)%Q))
                             (fst (Synthetic.keep (to_unit_range chunk) [bits])))
                      chunks) /\
    length (filter
              (fun tape =>
                 returns_message (repeat 1 96)
                   (embed_video Synthetic.keep
                      {| gen := generator_of tape; embed_log := [] |}
                      (Synthetic.grey_video 20) "out.mp4" 8))
              (tapes 96 (2 * 2 ^ 31)))
    = ((2 ^ 31) ^ 96)%nat.
Proof.
  destruct (@embed_video_single_message
              Synthetic.keep
              {| gen := Synthetic.counting; embed_log := [] |}
              (Synthetic.grey_video 20) "out.mp4" 8)
    as (bits & chunks & out & w' & _ & H2 & _ & _ & H5 & _ & H7 & _ & H9 & H10).
  - lia.
  - exists bits, chunks, out, w'.
    split; [exact H2|]. split; [exact H5|]. split; [exact H7|].
    split; [exact H9|].
    apply (H10 (2 ^ 31)%nat (repeat 1 96)).
    + apply repeat_length.
    + apply Forall_forall. intros b Hb. apply repeat_spec in Hb. auto.
Defined.

Lemma analyze_video_mean_of_frames_witness :
  exists chunks,
    decoder_chunks (Synthetic.grey_video 20) 8 = Ok chunks /\
    analyze_video Synthetic.steady (Ok (2, 2, 20)) (Synthetic.grey_video 20) 8 =
    Ok (map (fun j =>
               Fin (Qsum (map (fun r => nth (S j) r 0%Q)
                              (frame_predictions Synthetic.steady chunks))
                    / inject_Z (Z.of_nat (length (Synthetic.grey_video 20))))%Q)
            (seq 0 2)).
Proof.
  destruct (@analyze_video_mean_of_frames
              Synthetic.steady (2, 2, 20) (Synthetic.grey_video 20) 8 2%nat)
    as (chunks & H1 & _ & _ & H4).
  - discriminate.
  - lia.
  - intros clip. split; [reflexivity|]. unfold Synthetic.steady. cbn [rows].
    apply length_map.
  - exists chunks. split; assumption.
Defined.

End InferenceFacts.

(** ** The Augmenter *)

Module AugmenterFacts.
Import Torch Augmentation Notions.

Lemma pick_bound (ps : list Q) (t : Q) :
  (0 <= t)%Q -> (t < Qsum ps)%Q -> (pick ps t < length ps)%nat.
Proof.
  revert t; induction ps as [|p ps IH]; intros t H0 Ht; simpl in *.
  - lra.
  - destruct (Qlt_le_dec t p) as [Hlt|Hle]; [lia|].
    apply -> Nat.succ_lt_mono. apply IH; lra.
Qed.

Lemma uniform_range (g : Generator) : (0 <= uniform g)%Q /\ (uniform g < 1)%Q.
Proof.
  unfold uniform, Qle, Qlt. cbn [Qnum Qden].
  assert (H := Z.mod_pos_bound (draw g 0) (2 ^ 53) ltac:(lia)).
  change (Z.pos (2 ^ 53)) with (2 ^ 53). lia.
Qed.

Lemma Qsum_nonneg (ps : list Q) :
  has_negative ps = false -> (0 <= Qsum ps)%Q.
Proof.
  unfold has_negative. induction ps as [|p ps IH]; simpl; intros H.
  - lra.
  - apply orb_false_elim in H. destruct H as [Hp Hps].
    specialize (IH Hps). destruct (Qlt_le_dec p 0); [discriminate|]. lra.
Qed.

Lemma multinomial_returns (ps : list Q) (g : Generator) :
  has_negative ps = false -> ~ (Qsum ps == 0)%Q ->
  exists i, multinomial ps g = Ok (i, advance 1 g) /\ (i < length ps)%nat.
Proof.
  intros Hneg Hsum.
  assert (Hpos : (0 < Qsum ps)%Q).
  { assert (H := Qsum_nonneg ps Hneg).
    destruct (Qlt_le_dec 0 (Qsum ps)); [assumption|].
    exfalso. apply Hsum. lra. }
  exists (pick ps (uniform g * Qsum ps)%Q). split.
  - unfold multinomial. destruct ps as [|p ps'].
    + simpl in Hpos. lra.
    + rewrite Hneg.
      destruct (Qeq_bool (Qsum (p :: ps')) 0) eqn:E; [|reflexivity].
      apply Qeq_bool_eq in E. contradiction.
  - destruct (uniform_range g) as [Hu0 Hu1].
    apply pick_bound; nra.
Qed.

Section WithCollaborators.
Context {T : Tensors} {C : Collaborators T}.

Lemma call_augs_length (self : Augmenter) (is_video : bool) :
  length (call_augs self is_video) = length (augs self).
Proof.
  unfold call_augs. destruct is_video; simpl; auto. apply length_map.
Qed.

(** In non-video mode the instances of the class named
    [VideoCompressorAugmenter], and only those, give way to [Identity()];
    in video mode the list is the stored one. *)
Lemma call_augs_spec (self : Augmenter) (is_video : bool) (index : nat) (a : aug) :
  nth_error (augs self) index = Some a ->
  nth_error (call_augs self is_video) index =
  Some (if is_video then a
        else match cls a with
             | VideoCompressorAugmenter => mkAug Identity []
             | _ => a
             end).
Proof.
  intros H. unfold call_augs. destruct is_video; simpl; auto.
  rewrite nth_error_map, H. simpl. destruct (cls a); reflexivity.
Qed.

Lemma sampled_transformation (self : Augmenter) (is_video : bool) (g : Generator) :
  sampleable self ->
  exists index a,
    multinomial (aug_probs self) g = Ok (index, advance 1 g) /\
    nth_error (call_augs self is_video) index = Some a.
Proof.
  intros (Hlen & Hneg & Hsum).
  destruct (@multinomial_returns (aug_probs self) g Hneg Hsum)
    as (i & Hm & Hi).
  assert (Hi' : (i < length (call_augs self is_video))%nat)
    by (rewrite call_augs_length, Hlen; exact Hi).
  destruct (nth_error (call_augs self is_video) i) as [a|] eqn:E.
  - exists i, a. auto.
  - apply nth_error_None in E. lia.
Qed.

Lemma augment_plain (self : Augmenter) (is_video : bool)
      (image : tensor) (mask : option tensor) (g : Generator) :
  sampleable self ->
  exists r, augment self image mask is_video false g = Ok r.
Proof.
  intros Hs.
  destruct (@sampled_transformation self is_video g Hs)
    as (i & a & Hm & Ha).
  unfold augment. rewrite Hm. cbn [Py.bind]. unfold getitem. rewrite Ha.
  cbn [Py.bind negb].
  destruct (aug_forward a image mask (advance 1 g)) as [[i' m'] g2].
  eexists; reflexivity.
Qed.

Lemma final_cons s r steps : final s (r :: steps) = final (carried r) steps.
Proof. reflexivity. Qed.

Lemma forward_loop (self : Augmenter) (is_video : bool) (idxs : list Z) :
  sampleable self ->
  forall a m names sa_ sa g,
  exists steps sa_',
    length steps = length idxs /\
    chained self is_video (a, m, g) steps /\
    Py.for_each (forward_step self is_video) idxs
      {| imgs_aug := Bound a; mask_targets := Bound m;
         selected_augs := Bound names; selected_aug_ := sa_;
         selected_aug := sa; rng := g |} =
    Ok {| imgs_aug := Bound (fst (fst (final (a, m, g) steps)));
          mask_targets := Bound (snd (fst (final (a, m, g) steps)));
          selected_augs := Bound (names ++ map label steps);
          selected_aug_ := sa_';
          selected_aug := sa;
          rng := snd (final (a, m, g) steps) |}.
Proof.
  intros Hs. induction idxs as [|i idxs IH]; intros a m names sa_ sa g.
  - exists [], sa_. simpl. rewrite app_nil_r. auto.
  - destruct (@augment_plain self is_video a m g Hs)
      as ([[[a1 m1] name] g1] & Hr).
    destruct (IH a1 m1 (names ++ [name]) (Bound name) sa g1)
      as (steps & sa_' & Hlen & Hch & Hrun).
    exists ((a1, m1, name, g1) :: steps), sa_'.
    split; [simpl; now rewrite Hlen|].
    split; [simpl; auto|].
    cbn [Py.for_each]. unfold forward_step at 1.
    cbn [imgs_aug mask_targets selected_augs rng selected_aug read Py.bind].
    rewrite Hr. cbn [Py.bind]. rewrite Hrun. rewrite final_cons.
    cbn [carried map label]. rewrite <- app_assoc. reflexivity.
Qed.

Lemma range_count (n : Z) :
  exists idxs, Py.range 0 n 1 = Ok idxs /\ length idxs = Z.to_nat n.
Proof.
  unfold Py.range. cbn [Z.eqb]. eexists. split; [reflexivity|].
  rewrite length_map, length_seq. unfold Py.range_length. cbn [Z.ltb Z.compare].
  destruct (Z.ltb_spec 0 n).
  - rewrite Z.div_1_r. lia.
  - lia.
Qed.

(** C7.  In training mode, with [num_augs >= 1] and weights that torch
    can sample from, [forward] first forms
    [imgs_w * mask + imgs * (1 - mask)] with the mask of the mask embedder,
    then calls [augment] [num_augs] times, each call on the frames and the
    mask that the call before returned, and returns the last frames, the
    last mask and the labels of all the steps joined by ["+"]. *)
Theorem forward_training_blends_then_chains
    (self : Augmenter) (imgs_w imgs : tensor) (masks : option tensor)
    (is_video : bool) (g : Generator) :
  training self = true ->
  1 <= num_augs self ->
  sampleable self ->
  let mask0 := fst (embedder_call (mask_embedder self) imgs_w masks g) in
  let g0 := snd (embedder_call (mask_embedder self) imgs_w masks g) in
  let blended := add (mul imgs_w mask0) (mul imgs (rsub 1 mask0)) in
  exists steps,
    Z.of_nat (length steps) = num_augs self /\
    chained self is_video (blended, Some mask0, g0) steps /\
    forward self imgs_w imgs masks is_video g =
    Ok (fst (fst (final (blended, Some mask0, g0) steps)),
        snd (fst (final (blended, Some mask0, g0) steps)),
        Py.join "+" (map label steps),
        snd (final (blended, Some mask0, g0) steps)).
Proof.
  intros Htrain Hn Hs mask0 g0 blended.
  destruct (range_count (num_augs self)) as (idxs & Hr & Hlen).
  destruct (@forward_loop self is_video idxs Hs blended (Some mask0) []
                          Unbound Unbound g0)
    as (steps & sa_' & Hlen' & Hch & Hrun).
  exists steps.
  split; [rewrite Hlen', Hlen; lia|].
  split; [exact Hch|].
  unfold forward. rewrite Htrain.
  subst mask0 g0 blended.
  destruct (embedder_call (mask_embedder self) imgs_w masks g) as [m0 g1].
  cbn [fst snd] in *. rewrite Hr. cbn [Py.bind]. rewrite Hrun.
  reflexivity.
Qed.

(** C5, as the code has it.  In evaluation mode [forward] never returns:
    the branch reads the local [imgs_aug] before any assignment to it, at
    the first call of [augment] when the loop runs and at the [return]
    statement when it does not. *)
Theorem forward_eval_reads_unbound_local
    (self : Augmenter) (imgs_w imgs : tensor) (masks : option tensor)
    (is_video : bool) (g : Generator) :
  forward (eval self) imgs_w imgs masks is_video g =
  Raise (UnboundLocalError "imgs_aug").
Proof.
  unfold forward. cbn [training eval num_augs].
  destruct (range_count (num_augs self)) as (idxs & Hr & _).
  rewrite Hr. cbn [Py.bind]. destruct idxs as [|i idxs]; reflexivity.
Qed.


(** C9, as the code has it.  An Augmenter built from the mapping
    [{'h264': 1}] holds one transformation, of the class [H264] of the
    video module.  A call of [augment] in non-video mode keeps that
    transformation in the list of the call, applies it to the frames and
    reports the label ["H264"]: the test of line 122 looks for the class
    name ["VideoCompressorAugmenter"] only. *)
Theorem augment_applies_h264_to_images
    (masks : masks_dict) (num_augs : Z) (image : tensor)
    (mask : option tensor) (g : Generator) :
  exists self g1,
    init masks [("h264", 1%Q)] [] num_augs = Ok self /\
    from_video_module H264 = true /\
    call_augs self false = [mkAug H264 []] /\
    multinomial (aug_probs self) g = Ok (0%nat, g1) /\
    augment self image mask false false g =
    Ok (fst (fst (aug_forward (mkAug H264 []) image mask g1)),
        snd (fst (aug_forward (mkAug H264 []) image mask g1)),
        "H264",
        snd (aug_forward (mkAug H264 []) image mask g1)).
Proof.
  set (self := {| mask_embedder := get_mask_embedder masks;
                  augs := [mkAug H264 []]; aug_probs := [1 # 1]%Q;
                  num_augs := num_augs; training := true |}).
  exists self, (advance 1 g). split; [reflexivity|].
  split; [reflexivity|]. split; [reflexivity|].
  assert (Hs : sampleable self).
  { split; [reflexivity|]. split; [reflexivity|]. discriminate. }
  destruct (@sampled_transformation self false g Hs) as (i & a & Hm & Ha).
  assert (i = 0%nat).
  { destruct i; [reflexivity|]. destruct i; discriminate Ha. }
  subst i. cbn in Ha. inversion Ha; subst a.
  split; [exact Hm|].
  unfold augment. rewrite Hm. cbn [Py.bind]. cbn [call_augs getitem].
  cbn.
  destruct (aug_forward (mkAug H264 []) image mask (advance 1 g)) as [[i' m'] g2].
  reflexivity.
Qed.

Lemma parse_loop (augs_params : list (string * kwargs))
      (augs : list (string * Q)) (acc_a : list aug) (acc_p : list Q) :
  Py.for_each (parse_one augs_params) augs (acc_a, acc_p) =
  match first_unknown augs with
  | Some name => Raise (ValueError
      ("Augmentation " ++ name ++ " not found. Add it in name2aug."))
  | None =>
    Ok (acc_a ++
        map (fun item =>
               mkAug (match lookup name2aug (fst item) with
                      | Some c => c
                      | None => Identity
                      end)
                     (match lookup augs_params (fst item) with
                      | Some p => p
                      | None => []
                      end)) augs,
        acc_p ++ map snd augs)
  end.
Proof.
  revert acc_a acc_p. induction augs as [|[name w] augs IH]; intros acc_a acc_p.
  - simpl. now rewrite !app_nil_r.
  - unfold first_unknown in *. cbn [Py.for_each parse_one find fst].
    destruct (lookup name2aug name) as [c|] eqn:E.
    + cbn [Py.bind]. rewrite IH.
      destruct (option_map fst _); [reflexivity|].
      cbn [map fst snd]. rewrite E, <- !app_assoc. reflexivity.
    + reflexivity.
Qed.

Lemma comprehension_zero_total (probs : list Q) (total : Q) :
  probs <> [] -> (total == 0)%Q ->
  comprehension (fun prob => truediv prob total) probs =
  Raise (ZeroDivisionError "float division by zero").
Proof.
  intros Hne Hz. destruct probs as [|p probs]; [contradiction|].
  cbn [comprehension]. unfold truediv at 1.
  rewrite (proj2 (Qeq_bool_iff total 0) Hz). reflexivity.
Qed.

(** C6, as the code has it.  When the weight mapping has a key that is
    not in the catalog, or has at least one item and weights that sum to
    zero, the constructor raises and so builds no Augmenter: [ValueError]
    naming the first unknown key, raised by the lookup of line 109, or
    else the [ZeroDivisionError] of the division of line 117. *)
Theorem init_rejects_misconfiguration
    (masks : masks_dict) (augs : list (string * Q))
    (augs_params : list (string * kwargs)) (num_augs : Z) :
  misconfigured augs ->
  init masks augs augs_params num_augs =
  Raise (match first_unknown augs with
         | Some name => ValueError
             ("Augmentation " ++ name ++ " not found. Add it in name2aug.")
         | None => ZeroDivisionError "float division by zero"
         end)
  /\ forall self, init masks augs augs_params num_augs <> Ok self.
Proof.
  intros Hbad.
  assert (E : init masks augs augs_params num_augs =
    Raise (match first_unknown augs with
           | Some name => ValueError
               ("Augmentation " ++ name ++ " not found. Add it in name2aug.")
           | None => ZeroDivisionError "float division by zero"
           end)).
  { unfold init, parse_augmentations. rewrite parse_loop.
    unfold misconfigured in Hbad.
    destruct (first_unknown augs) as [name|]; [reflexivity|].
    destruct Hbad as [Hbad|[Hne Hz]]; [contradiction|].
    cbn [Py.bind app]. rewrite comprehension_zero_total; auto.
    intros Hnil. apply map_eq_nil in Hnil. contradiction. }
  split; [exact E|]. intros self. rewrite E. discriminate.
Qed.

Lemma comprehension_truediv (probs : list Q) (total : Q) :
  ~ (total == 0)%Q ->
  comprehension (fun prob => truediv prob total) probs =
  Ok (map (fun prob => prob / total)%Q probs).
Proof.
  intros Hnz. induction probs as [|p probs IH]; [reflexivity|].
  cbn [comprehension map]. unfold truediv at 1.
  destruct (Qeq_bool total 0) eqn:E.
  - apply Qeq_bool_eq in E. contradiction.
  - cbn [Py.bind]. rewrite IH. reflexivity.
Qed.

Lemma Qsum_scaled (probs : list Q) (total : Q) :
  ~ (total == 0)%Q ->
  (Qsum (map (fun prob => prob / total) probs) == Qsum probs / total)%Q.
Proof.
  intros Hnz. induction probs as [|p probs IH]; cbn [map Qsum fold_right].
  - field. exact Hnz.
  - fold (Qsum (map (fun prob => prob / total)%Q probs)).
    fold (Qsum probs). rewrite IH. field. exact Hnz.
Qed.

Lemma has_negative_scaled (probs : list Q) (total : Q) :
  (0 < total)%Q -> has_negative probs = false ->
  has_negative (map (fun prob => prob / total)%Q probs) = false.
Proof.
  intros Hpos. unfold has_negative.
  induction probs as [|p probs IH]; cbn [map existsb]; [reflexivity|].
  intros H. apply orb_false_elim in H. destruct H as [Hp Hps].
  rewrite (IH Hps), orb_false_r.
  destruct (Qlt_le_dec p 0) as [|Hp0]; [discriminate|].
  destruct (Qlt_le_dec (p / total) 0) as [Hlt|]; [|reflexivity].
  exfalso. apply (Qlt_not_le _ _ Hlt).
  apply Qle_shift_div_l; [exact Hpos|]. lra.
Qed.

(** The constructor on a mapping with known names and weights that are
    not negative and not all zero: the Augmenter is built, in training
    mode, with weights that torch can sample from. *)
Lemma init_sampleable
      (masks : masks_dict) (augs : list (string * Q))
      (augs_params : list (string * kwargs)) (num_augs : Z) :
  first_unknown augs = None ->
  has_negative (map snd augs) = false ->
  ~ (Qsum (map snd augs) == 0)%Q ->
  exists self,
    init masks augs augs_params num_augs = Ok self /\
    sampleable self /\ training self = true /\
    Augmentation.num_augs self = num_augs /\
    length (Augmentation.augs self) = length augs.
Proof.
  intros Hknown Hneg Hsum.
  assert (Hpos : (0 < Qsum (map snd augs))%Q).
  { assert (H := Qsum_nonneg _ Hneg).
    destruct (Qlt_le_dec 0 (Qsum (map snd augs))); [assumption|].
    exfalso. apply Hsum. lra. }
  unfold init, parse_augmentations. rewrite parse_loop, Hknown.
  cbn [Py.bind app]. rewrite comprehension_truediv by exact Hsum.
  cbn [Py.bind]. eexists. split; [reflexivity|].
  cbn [Augmentation.augs aug_probs training Augmentation.num_augs].
  split; [|split; [reflexivity|split; [reflexivity|apply length_map]]].
  unfold sampleable. cbn [Augmentation.augs aug_probs].
  split; [now rewrite !length_map|].
  split; [apply has_negative_scaled; assumption|].
  rewrite Qsum_scaled by exact Hsum. intros H.
  apply Hsum. apply (Qmult_inj_r _ _ (/ Qsum (map snd augs))%Q).
  - intros Hinv. apply Hsum.
    rewrite <- (Qinv_involutive (Qsum (map snd augs))), Hinv. reflexivity.
  - rewrite Qmult_0_l. exact H.
Qed.

End WithCollaborators.

(** The two rejected kinds of mapping: [{'identity': 1, 'nope': 1}] and
    [{'identity': 1, 'crop': -1}]. *)
Lemma init_rejects_misconfiguration_witness :
  @init _ Synthetic.flat_collaborators tt
        [("identity", 1%Q); ("nope", 1%Q)] [] 1 =
    Raise (ValueError "Augmentation nope not found. Add it in name2aug.")
  /\
  @init _ Synthetic.flat_collaborators tt
        [("identity", 1%Q); ("crop", (-1)%Q)] [] 1 =
    Raise (ZeroDivisionError "float division by zero").
Proof.
  split.
  - apply (@init_rejects_misconfiguration _ Synthetic.flat_collaborators tt
             [("identity", 1%Q); ("nope", 1%Q)] [] 1).
    left. discriminate.
  - apply (@init_rejects_misconfiguration _ Synthetic.flat_collaborators tt
             [("identity", 1%Q); ("crop", (-1)%Q)] [] 1).
    right. split; [discriminate | reflexivity].
Defined.

(** The empty mapping [{}] has weights that sum to zero; the constructor
    accepts it, and the error comes at the first call of [augment]. *)
Lemma init_accepts_empty_mapping :
  (Qsum (map snd (@nil (string * Q))) == 0)%Q /\
  @init _ Synthetic.flat_collaborators tt [] [] 1 =
    Ok Synthetic.empty_catalog /\
  augment Synthetic.empty_catalog Synthetic.white (Some Synthetic.white)
          true true Synthetic.counting =
    Raise (RuntimeError
      "cannot sample n_sample > prob_dist.size(-1) samples without replacement").
Proof.
  split; [reflexivity|]. split; reflexivity.
Qed.

Lemma two_steps_sampleable : sampleable Synthetic.two_steps.
Proof.
  split; [reflexivity|]. split; [reflexivity|]. discriminate.
Defined.

Lemma forward_training_blends_then_chains_witness :
  exists steps a m g',
    length steps = 2%nat /\
    forward Synthetic.two_steps Synthetic.white Synthetic.grey None true
            Synthetic.middle =
    Ok (a, m, Py.join "+" (map (@label Synthetic.flat_tensors) steps), g').
Proof.
  destruct (@forward_training_blends_then_chains
              _ Synthetic.flat_collaborators Synthetic.two_steps
              Synthetic.white Synthetic.grey None true Synthetic.middle)
    as (steps & H1 & _ & H3).
  - reflexivity.
  - cbn. lia.
  - exact two_steps_sampleable.
  - exists steps. do 3 eexists. split; [|exact H3].
    assert (H : Z.of_nat (length steps) = 2) by exact H1. lia.
Defined.



(** The same call, computed: [Resize] is selected, halves the clip, and
    the clip and the mask come back with the height and width of the
    input. *)
Example augment_resize_restored :
  augment Synthetic.two_steps Synthetic.white (Some Synthetic.white)
          true true Synthetic.middle =
  Ok (Synthetic.white, Some Synthetic.white, "Resize",
      advance 1 Synthetic.middle).
Proof. reflexivity. Qed.

End AugmenterFacts.

(** ** More on the pipeline of [inference_av.py] *)

Module PipelineFacts.
Import Torch InferenceAv Notions PyFacts InferenceFacts.

Lemma range_negative_step (n : nat) (step : Z) :
  step < 0 -> Py.range 0 (Z.of_nat n) step = Ok [].
Proof.
  intros Hs. unfold Py.range, Py.range_length.
  destruct (Z.eqb_spec step 0); [lia|].
  destruct (Z.ltb_spec 0 step); [lia|].
  destruct (Z.ltb_spec (Z.of_nat n) 0); [lia|]. reflexivity.
Qed.

Lemma range_zero_step (start stop : Z) :
  Py.range start stop 0 = Raise (ValueError "range() arg 3 must not be zero").
Proof. reflexivity. Qed.

Lemma decoder_chunks_positive (decoder : list frame) (chunk_size : Z) :
  1 <= chunk_size ->
  exists chunks,
    decoder_chunks decoder chunk_size = Ok chunks /\ concat chunks = decoder.
Proof.
  intros Hcs.
  assert (HN : (0 < Z.to_nat chunk_size)%nat) by lia.
  assert (Hc := @decoder_chunks_windows decoder (Z.to_nat chunk_size) HN).
  rewrite Z2Nat.id in Hc by lia.
  eexists. split; [exact Hc|]. apply windows_partition. exact HN.
Qed.

(** The value of [analyze_video] in terms of the rows that the detector
    answers over the chunks. *)
Lemma analyze_video_value
      (model_detect : list float_frame -> tensor2)
      (probe_val : Z * Z * Z) (decoder : list frame) (chunk_size : Z)
      (K : nat) (chunks : list (list frame)) :
  decoder <> [] ->
  decoder_chunks decoder chunk_size = Ok chunks ->
  concat chunks = decoder ->
  (forall clip, ncols (model_detect clip) = S K /\
                length (rows (model_detect clip)) = length clip) ->
  analyze_video model_detect (Ok probe_val) decoder chunk_size =
  Ok (map (fun j =>
             Fin (Qsum (map (fun r => nth (S j) r 0%Q)
                            (frame_predictions model_detect chunks))
                  / inject_Z (Z.of_nat (length decoder)))%Q)
          (seq 0 K)).
Proof.
  intros Hne Hc Hpart Hdet.
  assert (Hrows : length (frame_predictions model_detect chunks) =
                  length decoder).
  { unfold frame_predictions.
    transitivity (length (concat chunks)); [|now rewrite Hpart].
    apply (length_concat_map
             (fun c => rows (model_detect (to_unit_range c)))).
    intros c. destruct (Hdet (to_unit_range c)) as [_ ->].
    unfold to_unit_range. apply length_map. }
  rewrite (@analyze_video_chunks model_detect probe_val decoder chunk_size
                                 chunks Hc).
  rewrite (@cat_uniform K).
  - cbn [Py.bind]. f_equal. rewrite analyzed_rows.
    rewrite mean_dim0_rows.
    + apply map_ext. intros j. rewrite length_map, Hrows, map_map.
      do 3 f_equal. apply map_ext. intros r. apply nth_tl.
    + intros Hnil. apply (f_equal (@length _)) in Hnil.
      rewrite length_map, Hrows in Hnil.
      destruct decoder; [contradiction | discriminate].
  - intros Hnil. apply map_eq_nil in Hnil. rewrite Hnil in Hpart.
    apply Hne. symmetry. exact Hpart.
  - apply Forall_forall. intros t Ht. apply in_map_iff in Ht.
    destruct Ht as (c & <- & _). unfold analyze_video_chunk.
    cbn [ncols drop_first_column].
    destruct (Hdet (to_unit_range c)) as [-> _]. reflexivity.
Qed.

Lemma to_unit_range_concat (chunks : list (list frame)) :
  concat (map to_unit_range chunks) = to_unit_range (concat chunks).
Proof.
  unfold to_unit_range. symmetry. apply concat_map.
Qed.

Lemma frame_predictions_framewise
      (model_detect : list float_frame -> tensor2)
      (f : float_frame -> list Q) (K : nat) (chunks : list (list frame)) :
  (forall clip, model_detect clip = {| ncols := S K; rows := map f clip |}) ->
  frame_predictions model_detect chunks =
  map f (to_unit_range (concat chunks)).
Proof.
  intros Hf. unfold frame_predictions.
  rewrite <- to_unit_range_concat, concat_map, map_map.
  f_equal. apply map_ext. intros c. rewrite Hf. reflexivity.
Qed.

(** X1.  When the detector answers frame by frame (row [i] of its answer
    depends on frame [i] of the clip only), the result of [analyze_video]
    on a video with at least one frame is the same for every chunk size
    from 1 on: the mean over the frames of the video of the per-frame
    prediction, first column dropped. *)
Theorem analyze_video_chunk_size_irrelevant
    (model_detect : list float_frame -> tensor2)
    (f : float_frame -> list Q) (K : nat)
    (probe_val : Z * Z * Z) (decoder : list frame) (chunk_size : Z) :
  decoder <> [] ->
  1 <= chunk_size ->
  (forall clip, model_detect clip = {| ncols := S K; rows := map f clip |}) ->
  analyze_video model_detect (Ok probe_val) decoder chunk_size =
  Ok (map (fun j =>
             Fin (Qsum (map (fun fr => nth (S j) (f fr) 0%Q)
                            (to_unit_range decoder))
                  / inject_Z (Z.of_nat (length decoder)))%Q)
          (seq 0 K)).
Proof.
  intros Hne Hcs Hf.
  destruct (@decoder_chunks_positive decoder chunk_size Hcs)
    as (chunks & Hc & Hpart).
  rewrite (@analyze_video_value model_detect probe_val decoder chunk_size K
                                chunks Hne Hc Hpart).
  - rewrite (@frame_predictions_framewise model_detect f K chunks Hf).
    rewrite Hpart. f_equal. apply map_ext. intros j.
    rewrite map_map. reflexivity.
  - intros clip. rewrite Hf. cbn [ncols rows]. split; [reflexivity|].
    apply length_map.
Qed.

Lemma analyze_video_chunk_size_irrelevant_witness :
  analyze_video Synthetic.steady (Ok (2, 2, 20)) (Synthetic.grey_video 20) 8 =
  analyze_video Synthetic.steady (Ok (2, 2, 20)) (Synthetic.grey_video 20) 3.
Proof.
  rewrite (@analyze_video_chunk_size_irrelevant
             Synthetic.steady (fun _ => [1; 1 # 4; 3 # 4]%Q) 2 (2, 2, 20)
             (Synthetic.grey_video 20) 8);
    [|discriminate|lia|reflexivity].
  rewrite (@analyze_video_chunk_size_irrelevant
             Synthetic.steady (fun _ => [1; 1 # 4; 3 # 4]%Q) 2 (2, 2, 20)
             (Synthetic.grey_video 20) 3);
    [|discriminate|lia|reflexivity].
  reflexivity.
Defined.

Lemma processed_framewise
      (model_embed : list float_frame -> message -> list float_frame * message)
      (h : message -> float_frame -> float_frame) (m : message)
      (chunk : list frame) :
  (forall clip m', fst (model_embed clip m') = map (h m') clip) ->
  processed model_embed m chunk =
  map (fun fr => map (fun x => byte (x * 255)%Q)
                     (h m (map (fun p => inject_Z p / 255)%Q fr)))
      chunk.
Proof.
  intros Hh. unfold processed, process_video_chunk.
  specialize (Hh (to_unit_range chunk) m).
  destruct (model_embed (to_unit_range chunk) m) as [imgs_w m'].
  cbn [fst] in *. rewrite Hh. unfold to_unit_range. rewrite !map_map.
  reflexivity.
Qed.

(** X2.  When the embedder answers frame by frame, what [embed_video]
    writes is the same for every chunk size from 1 on: frame [i] of the
    output is the watermarked frame [i] of the input, scaled by 255 and
    converted to bytes. *)
Theorem embed_video_chunk_size_irrelevant
    (model_embed : list float_frame -> message -> list float_frame * message)
    (h : message -> float_frame -> float_frame)
    (w : world) (decoder : list frame) (output_path : string)
    (chunk_size : Z) :
  1 <= chunk_size ->
  (forall clip m, fst (model_embed clip m) = map (h m) clip) ->
  exists w',
    embed_video model_embed w decoder output_path chunk_size =
    Ok ((output_path, flatten_tolist (fst (randint 0 2 1 96 (gen w)))),
        map (fun fr => map (fun x => byte (x * 255)%Q)
                           (h (fst (randint 0 2 1 96 (gen w)))
                              (map (fun p => inject_Z p / 255)%Q fr)))
            decoder,
        w').
Proof.
  intros Hcs Hh.
  destruct (@decoder_chunks_positive decoder chunk_size Hcs)
    as (chunks & Hc & Hpart).
  eexists.
  rewrite (@embed_video_chunks model_embed w decoder output_path
                               chunk_size chunks Hc).
  rewrite <- Hpart. rewrite concat_map. do 4 f_equal.
  apply map_ext. intros c. apply processed_framewise. exact Hh.
Qed.

Lemma embed_video_chunk_size_irrelevant_witness :
  exists w1 w2 out,
    embed_video Synthetic.keep {| gen := Synthetic.counting; embed_log := [] |}
                (Synthetic.grey_video 20) "out.mp4" 8 =
      Ok (("out.mp4",
           flatten_tolist (fst (randint 0 2 1 96 Synthetic.counting))),
          out, w1) /\
    embed_video Synthetic.keep {| gen := Synthetic.counting; embed_log := [] |}
                (Synthetic.grey_video 20) "out.mp4" 3 =
      Ok (("out.mp4",
           flatten_tolist (fst (randint 0 2 1 96 Synthetic.counting))),
          out, w2).
Proof.
  destruct (@embed_video_chunk_size_irrelevant
              Synthetic.keep (fun _ fr => fr)
              {| gen := Synthetic.counting; embed_log := [] |}
              (Synthetic.grey_video 20) "out.mp4" 8) as [w1 H1].
  { lia. }
  { intros clip m. cbn. symmetry. apply map_id. }
  destruct (@embed_video_chunk_size_irrelevant
              Synthetic.keep (fun _ fr => fr)
              {| gen := Synthetic.counting; embed_log := [] |}
              (Synthetic.grey_video 20) "out.mp4" 3) as [w2 H2].
  { lia. }
  { intros clip m. cbn. symmetry. apply map_id. }
  exists w1, w2. eexists. split; [exact H1 | exact H2].
Defined.

(** X4.  A chunk size that is not positive.  With 0 both functions raise
    the [ValueError] of [range]; [embed_video] has drawn its message by
    then.  With a negative chunk size neither loop runs: [embed_video]
    returns its message after writing no frame and calling the embedder
    not once, and [analyze_video] raises the [RuntimeError] of [torch.cat]
    whatever the video. *)
Theorem nonpositive_chunk_size
    (model_embed : list float_frame -> message -> list float_frame * message)
    (model_detect : list float_frame -> tensor2)
    (w : world) (probe_val : Z * Z * Z) (decoder : list frame)
    (output_path : string) (chunk_size : Z) :
  (chunk_size = 0 ->
   embed_video model_embed w decoder output_path chunk_size =
     Raise (ValueError "range() arg 3 must not be zero") /\
   analyze_video model_detect (Ok probe_val) decoder chunk_size =
     Raise (ValueError "range() arg 3 must not be zero")) /\
  (chunk_size < 0 ->
   embed_video model_embed w decoder output_path chunk_size =
     Ok ((output_path, flatten_tolist (fst (randint 0 2 1 96 (gen w)))), [],
         {| gen := advance 96 (gen w); embed_log := embed_log w |}) /\
   analyze_video model_detect (Ok probe_val) decoder chunk_size =
     Raise (RuntimeError "torch.cat(): expected a non-empty list of Tensors")).
Proof.
  split.
  - intros ->. split; reflexivity.
  - intros Hneg. split.
    + rewrite (@embed_video_run model_embed w decoder output_path chunk_size
                                [] (range_negative_step _ Hneg)).
      cbn [map concat length repeat]. rewrite app_nil_r. reflexivity.
    + unfold analyze_video. cbn [Py.bind].
      rewrite (range_negative_step _ Hneg). reflexivity.
Qed.

Lemma nonpositive_chunk_size_witness :
  analyze_video Synthetic.steady (Ok (2, 2, 20)) (Synthetic.grey_video 20) 0 =
    Raise (ValueError "range() arg 3 must not be zero") /\
  analyze_video Synthetic.steady (Ok (2, 2, 20)) (Synthetic.grey_video 20) (-8) =
    Raise (RuntimeError "torch.cat(): expected a non-empty list of Tensors").
Proof.
  split.
  - apply (@nonpositive_chunk_size
             Synthetic.keep Synthetic.steady
             {| gen := Synthetic.counting; embed_log := [] |} (2, 2, 20)
             (Synthetic.grey_video 20) "out.mp4" 0).
    reflexivity.
  - apply (@nonpositive_chunk_size
             Synthetic.keep Synthetic.steady
             {| gen := Synthetic.counting; embed_log := [] |} (2, 2, 20)
             (Synthetic.grey_video 20) "out.mp4" (-8)).
    lia.
Defined.

Lemma processed_bytes
      (model_embed : list float_frame -> message -> list float_frame * message)
      (m : message) (chunk : list frame) :
  Forall (Forall (fun p => 0 <= p < 256)) (processed model_embed m chunk).
Proof.
  unfold processed, process_video_chunk.
  destruct (model_embed (to_unit_range chunk) m) as [imgs_w m'].
  cbn [fst]. apply Forall_forall. intros fr Hfr. apply in_map_iff in Hfr.
  destruct Hfr as (fr' & <- & _). apply Forall_forall. intros p Hp.
  apply in_map_iff in Hp. destruct Hp as (x & <- & _).
  unfold byte. apply Z.mod_pos_bound. lia.
Qed.

(** Whatever the embedder answers, every entry of every frame that
    [embed_video] hands to the stream writer is a byte, between 0 and
    255. *)
Theorem embed_video_writes_bytes
    (model_embed : list float_frame -> message -> list float_frame * message)
    (w : world) (decoder : list frame) (output_path : string)
    (chunk_size : Z) :
  chunk_size <> 0 ->
  exists bits out w',
    embed_video model_embed w decoder output_path chunk_size =
      Ok ((output_path, bits), out, w') /\
    Forall (Forall (fun p => 0 <= p < 256)) out.
Proof.
  intros Hcs.
  destruct (@decoder_chunks_defined decoder chunk_size Hcs) as [chunks Hc].
  do 3 eexists. split.
  - apply (@embed_video_chunks model_embed w decoder output_path
                               chunk_size chunks Hc).
  - apply Forall_forall. intros fr Hfr. apply in_concat in Hfr.
    destruct Hfr as (frs & Hfrs & Hfr). apply in_map_iff in Hfrs.
    destruct Hfrs as (c & <- & _).
    assert (H := processed_bytes model_embed
                   (fst (randint 0 2 1 96 (gen w))) c).
    rewrite Forall_forall in H. exact (H fr Hfr).
Qed.

Lemma embed_video_writes_bytes_witness :
  exists bits out w',
    embed_video Synthetic.keep {| gen := Synthetic.counting; embed_log := [] |}
                (Synthetic.grey_video 20) "out.mp4" 8 =
      Ok (("out.mp4", bits), out, w') /\
    Forall (Forall (fun p => 0 <= p < 256)) out.
Proof.
  apply (@embed_video_writes_bytes
           Synthetic.keep {| gen := Synthetic.counting; embed_log := [] |}
           (Synthetic.grey_video 20) "out.mp4" 8).
  lia.
Defined.

End PipelineFacts.

(** ** More on the Augmenter *)

Module AugmenterMore.
Import Torch Augmentation Notions AugmenterFacts.

Lemma class_name_video_compressor (c : aug_class) :
  class_name c = "VideoCompressorAugmenter" -> c = VideoCompressorAugmenter.
Proof. destruct c; intros H; try discriminate H; reflexivity. Qed.

Section WithCollaborators.
Context {T : Tensors} {C : Collaborators T}.

(** The Augmenter that the constructor builds when it builds one. *)
Lemma init_cases (masks : masks_dict) (augs : list (string * Q))
      (augs_params : list (string * kwargs)) (num_augs : Z) :
  init masks augs augs_params num_augs =
  match first_unknown augs with
  | Some name => Raise (ValueError
      ("Augmentation " ++ name ++ " not found. Add it in name2aug."))
  | None =>
    if Qeq_bool (Qsum (map snd augs)) 0 &&
       match augs with [] => false | _ => true end
    then Raise (ZeroDivisionError "float division by zero")
    else
      Ok {| mask_embedder := get_mask_embedder masks;
            augs :=
              map (fun item =>
                     mkAug (match lookup name2aug (fst item) with
                            | Some c => c
                            | None => Identity
                            end)
                           (match lookup augs_params (fst item) with
                            | Some p => p
                            | None => []
                            end)) augs;
            aug_probs :=
              map (fun prob => prob / Qsum (map snd augs))%Q (map snd augs);
            num_augs := num_augs;
            training := true |}
  end.
Proof.
  unfold init, parse_augmentations. rewrite parse_loop.
  destruct (first_unknown augs) as [name|]; [reflexivity|].
  cbn [Py.bind app].
  destruct (Qeq_bool (Qsum (map snd augs)) 0) eqn:E.
  - destruct augs as [|item augs']; [reflexivity|].
    cbn [andb]. rewrite comprehension_zero_total; [reflexivity|discriminate|].
    apply Qeq_bool_eq. exact E.
  - cbn [andb]. rewrite comprehension_truediv; [reflexivity|].
    intros H. apply Qeq_eq_bool in H. congruence.
Qed.

Lemma first_unknown_none (augs : list (string * Q)) :
  first_unknown augs = None ->
  Forall (fun item => exists c, lookup name2aug (fst item) = Some c) augs.
Proof.
  unfold first_unknown. induction augs as [|item augs IH]; intros H.
  - constructor.
  - cbn [find] in H. destruct (lookup name2aug (fst item)) as [c|] eqn:E.
    + constructor; [exists c; exact E | apply IH; exact H].
    + discriminate H.
Qed.

Lemma built_matches (augs_params : list (string * kwargs))
      (augs : list (string * Q)) :
  Forall (fun item => exists c, lookup name2aug (fst item) = Some c) augs ->
  Forall2 (fun item a =>
             lookup name2aug (fst item) = Some (cls a) /\
             params a = match lookup augs_params (fst item) with
                        | Some p => p
                        | None => []
                        end)
          augs
          (map (fun item =>
                  mkAug (match lookup name2aug (fst item) with
                         | Some c => c
                         | None => Identity
                         end)
                        (match lookup augs_params (fst item) with
                         | Some p => p
                         | None => []
                         end)) augs).
Proof.
  induction 1 as [|item augs' [c Hc] _ IH]; cbn [map]; constructor.
  - cbn [cls params]. rewrite Hc. split; reflexivity.
  - exact IH.
Qed.

(** X7.  What the constructor stores when it returns.  The
    transformations are, in the order of the keys, instances of the
    catalog classes of the names, each with the parameters given under its
    name or with none; the weights are, in the same order, the given ones
    each divided by the sum of the given ones; the Augmenter starts in
    training mode with the given number of steps. *)
Theorem init_normalises_weights
    (masks : masks_dict) (augs : list (string * Q))
    (augs_params : list (string * kwargs)) (num_augs : Z)
    (self : Augmenter) :
  init masks augs augs_params num_augs = Ok self ->
  Forall2 (fun item a =>
             lookup name2aug (fst item) = Some (cls a) /\
             params a = match lookup augs_params (fst item) with
                        | Some p => p
                        | None => []
                        end)
          augs (Augmentation.augs self) /\
  aug_probs self =
    map (fun item => snd item / Qsum (map snd augs))%Q augs /\
  training self = true /\
  Augmentation.num_augs self = num_augs.
Proof.
  intros H. rewrite init_cases in H.
  destruct (first_unknown augs) as [name|] eqn:Hknown; [discriminate H|].
  destruct (Qeq_bool (Qsum (map snd augs)) 0 &&
            match augs with [] => false | _ => true end) eqn:E;
    [discriminate H|].
  inversion H; subst self; clear H.
  cbn [Augmentation.augs aug_probs training Augmentation.num_augs].
  split; [|split; [|split; reflexivity]].
  - apply built_matches, first_unknown_none, Hknown.
  - apply map_map.
Qed.

Lemma call_augs_image_mode (self : Augmenter) (a : aug) :
  In a (call_augs self false) -> cls a <> VideoCompressorAugmenter.
Proof.
  unfold call_augs. cbn [negb]. intros H. apply in_map_iff in H.
  destruct H as (a0 & <- & _).
  destruct a0 as [c kw]. destruct c; cbn; discriminate.
Qed.

(** X8.  Whatever the Augmenter, a call of [augment] in non-video mode
    that returns never reports the label ["VideoCompressorAugmenter"]. *)
Theorem augment_image_mode_never_video_compressor
    (self : Augmenter) (image : tensor) (mask : option tensor)
    (do_resize : bool) (g : Generator)
    (r : tensor * option tensor * string * Generator) :
  augment self image mask false do_resize g = Ok r ->
  label r <> "VideoCompressorAugmenter".
Proof.
  unfold augment.
  destruct (multinomial (aug_probs self) g) as [[index g1]|e];
    [|discriminate].
  cbn [Py.bind]. unfold getitem.
  destruct (nth_error (call_augs self false) index) as [a|] eqn:Ha;
    [|discriminate].
  cbn [Py.bind].
  assert (Hcls : class_name (cls a) <> "VideoCompressorAugmenter").
  { intros E. apply class_name_video_compressor in E.
    apply nth_error_In in Ha. exact (call_augs_image_mode _ _ Ha E). }
  destruct (aug_forward a image mask g1) as [[image' mask'] g2].
  destruct do_resize; cbn [negb].
  - destruct (negb (shape_eqb (shape_hw image') (shape_hw image))).
    + destruct mask' as [m'|]; cbn [interpolate_value Py.bind];
        [|discriminate].
      intros H; inversion H; subst r. exact Hcls.
    + intros H; inversion H; subst r. exact Hcls.
  - intros H; inversion H; subst r. exact Hcls.
Qed.

(** X9.  In training mode with [num_augs <= 0] the loop of [forward] does
    not run: the call returns the blend of the two inputs under the mask
    of the mask embedder, that mask, and the empty label, without drawing
    a transformation. *)
Theorem forward_training_without_steps
    (self : Augmenter) (imgs_w imgs : tensor) (masks : option tensor)
    (is_video : bool) (g : Generator) :
  training self = true ->
  num_augs self <= 0 ->
  let mask0 := fst (embedder_call (mask_embedder self) imgs_w masks g) in
  let g0 := snd (embedder_call (mask_embedder self) imgs_w masks g) in
  forward self imgs_w imgs masks is_video g =
  Ok (add (mul imgs_w mask0) (mul imgs (rsub 1 mask0)), Some mask0, "", g0).
Proof.
  intros Htrain Hn mask0 g0. unfold forward. rewrite Htrain.
  subst mask0 g0.
  destruct (embedder_call (mask_embedder self) imgs_w masks g) as [m0 g1].
  destruct (range_count (num_augs self)) as (idxs & Hr & Hlen).
  rewrite Hr. replace (Z.to_nat (num_augs self)) with 0%nat in Hlen by lia.
  destruct idxs; [|discriminate Hlen]. reflexivity.
Qed.

(** X10.  An Augmenter that holds a negative weight cannot sample: every
    call of [augment] on it raises the [RuntimeError] of
    [torch.multinomial], and in training mode with [num_augs >= 1] so does
    every call of [forward], after the mask embedder has answered. *)
Theorem negative_weight_fails_at_sampling (self : Augmenter) :
  has_negative (aug_probs self) = true ->
  (forall image mask is_video do_resize g,
      augment self image mask is_video do_resize g =
      Raise (RuntimeError
        "probability tensor contains either `inf`, `nan` or element < 0")) /\
  (training self = true -> 1 <= num_augs self ->
   forall imgs_w imgs masks is_video g,
      forward self imgs_w imgs masks is_video g =
      Raise (RuntimeError
        "probability tensor contains either `inf`, `nan` or element < 0")).
Proof.
  intros Hneg.
  assert (Haug : forall image mask is_video do_resize g,
    augment self image mask is_video do_resize g =
    Raise (RuntimeError
      "probability tensor contains either `inf`, `nan` or element < 0")).
  { intros image mask is_video do_resize g.
    unfold augment, multinomial.
    destruct (aug_probs self) as [|p ps]; [discriminate Hneg|].
    rewrite Hneg. reflexivity. }
  split; [exact Haug|].
  intros Htrain Hn imgs_w imgs masks is_video g.
  unfold forward. rewrite Htrain.
  destruct (embedder_call (mask_embedder self) imgs_w masks g) as [m0 g0].
  destruct (range_count (num_augs self)) as (idxs & Hr & Hlen).
  rewrite Hr. cbn [Py.bind].
  destruct idxs as [|i idxs]; [cbn in Hlen; lia|].
  cbn [Py.for_each]. unfold forward_step at 1.
  cbn [imgs_aug mask_targets rng read Py.bind].
  rewrite Haug. reflexivity.
Qed.

(** X11.  A call of [augment] with shape restoration on an Augmenter whose
    weights torch can sample from, made without a mask: when the selected
    transformation returns frames of another height or width and no mask,
    the call raises [AttributeError] at the resampling of the mask,
    after the frames were resampled. *)
Theorem augment_restore_without_mask
    (self : Augmenter) (image : tensor) (is_video : bool) (g : Generator) :
  sampleable self ->
  exists index g1 a image' mask' g2,
    multinomial (aug_probs self) g = Ok (index, g1) /\
    nth_error (call_augs self is_video) index = Some a /\
    aug_forward a image None g1 = (image', mask', g2) /\
    (shape_hw image' <> shape_hw image -> mask' = None ->
     augment self image None is_video true g =
     Raise (AttributeError "'NoneType' object has no attribute 'dim'")).
Proof.
  intros Hs.
  destruct (@sampled_transformation _ _ self is_video g Hs)
    as (i & a & Hm & Ha).
  destruct (aug_forward a image None (advance 1 g))
    as [[image' mask'] g2] eqn:Hf.
  exists i, (advance 1 g), a, image', mask', g2.
  split; [exact Hm|]. split; [exact Ha|]. split; [exact Hf|].
  intros Hne ->.
  unfold augment. rewrite Hm. cbn [Py.bind]. unfold getitem. rewrite Ha.
  cbn [Py.bind negb]. rewrite Hf.
  destruct (shape_eqb (shape_hw image') (shape_hw image)) eqn:E.
  - exfalso. apply Hne. unfold shape_eqb in E.
    apply andb_true_iff in E. destruct E as [E1 E2].
    apply Nat.eqb_eq in E1, E2.
    destruct (shape_hw image'), (shape_hw image). cbn in *. congruence.
  - reflexivity.
Qed.

(** X12.  The Augmenter that [get_dummy_augmenter()] returns is in
    training mode with one step per call and holds one [Identity]
    instance with the weight 1.  Every call of [augment] on it, in video
    mode or not, with or without shape restoration, selects that instance:
    the call returns what the instance returns with the label
    ["Identity"]; with shape restoration and a result of another height
    or width it returns frames and mask resampled to the height and width
    of the input, or raises [AttributeError] when there is no mask to
    resample. *)
Theorem get_dummy_augmenter_selects_identity
    (kind_none : masks_dict) (self : Augmenter) :
  get_dummy_augmenter kind_none = Ok self ->
  training self = true /\ num_augs self = 1 /\
  augs self = [mkAug Identity []] /\ aug_probs self = [1 # 1]%Q /\
  (forall image mask is_video do_resize g,
      let r := aug_forward (mkAug Identity []) image mask (advance 1 g) in
      let image' := fst (fst r) in
      let mask' := snd (fst r) in
      augment self image mask is_video do_resize g =
      if do_resize && negb (shape_eqb (shape_hw image') (shape_hw image))
      then
        match mask' with
        | Some m' =>
          Ok (interpolate image' (shape_hw image) "bilinear" false true,
              Some (interpolate m' (shape_hw image) "bilinear" false true),
              "Identity", snd r)
        | None =>
          Raise (AttributeError "'NoneType' object has no attribute 'dim'")
        end
      else Ok (image', mask', "Identity", snd r)).
Proof.
  intros H.
  assert (E : get_dummy_augmenter kind_none =
              Ok {| mask_embedder := get_mask_embedder kind_none;
                    augs := [mkAug Identity []]; aug_probs := [1 # 1]%Q;
                    num_augs := 1; training := true |}) by reflexivity.
  rewrite E in H. inversion H; subst self; clear H E.
  set (self := {| mask_embedder := get_mask_embedder kind_none;
                  augs := [mkAug Identity []]; aug_probs := [1 # 1]%Q;
                  num_augs := 1; training := true |}).
  assert (Hs : sampleable self).
  { split; [reflexivity|]. split; [reflexivity|]. discriminate. }
  split; [reflexivity|]. split; [reflexivity|]. split; [reflexivity|].
  split; [reflexivity|].
  intros image mask is_video do_resize g. cbv zeta.
  destruct (@sampled_transformation _ _ self is_video g Hs)
    as (i & a & Hm & Ha).
  assert (Hi : i = 0%nat).
  { destruct i; [reflexivity|].
    destruct is_video; destruct i; discriminate Ha. }
  subst i.
  assert (a = mkAug Identity []).
  { destruct is_video; cbn in Ha; inversion Ha; reflexivity. }
  subst a.
  unfold augment. rewrite Hm. cbn [Py.bind]. unfold getitem. rewrite Ha.
  cbn [Py.bind cls class_name].
  destruct (aug_forward (mkAug Identity []) image mask (advance 1 g))
    as [[i' m'] g2].
  cbn [fst snd]. destruct do_resize; cbn [negb andb]; [|reflexivity].
  destruct (negb (shape_eqb (shape_hw i') (shape_hw image)));
    [|reflexivity].
  destruct m' as [m'|]; reflexivity.
Qed.

End WithCollaborators.

Lemma init_normalises_weights_witness :
  exists self,
    @init _ Synthetic.flat_collaborators tt
          [("identity", 3%Q); ("hflip", 1%Q)] [] 2 = Ok self /\
    aug_probs self =
      map (fun item => snd item / Qsum [3; 1])%Q
          [("identity", 3%Q); ("hflip", 1%Q)] /\
    training self = true /\ num_augs self = 2.
Proof.
  eexists. split; [reflexivity|].
  destruct (@init_normalises_weights
              _ Synthetic.flat_collaborators tt
              [("identity", 3%Q); ("hflip", 1%Q)] [] 2 _ eq_refl)
    as (_ & H2 & H3 & H4).
  split; [exact H2 | split; [exact H3 | exact H4]].
Defined.

Lemma augment_image_mode_never_video_compressor_witness :
  @label Synthetic.flat_tensors
         (Synthetic.white, Some Synthetic.white, "Resize",
          advance 1 Synthetic.middle)
  <> "VideoCompressorAugmenter".
Proof.
  apply (@augment_image_mode_never_video_compressor
           _ Synthetic.flat_collaborators Synthetic.two_steps
           Synthetic.white (Some Synthetic.white) true Synthetic.middle).
  reflexivity.
Defined.

Lemma forward_training_without_steps_witness :
  exists a,
    forward Synthetic.no_steps Synthetic.white Synthetic.grey None true
            Synthetic.middle =
    Ok (a, Some (Synthetic.mkFlat (4, 4)%nat 1), "", Synthetic.middle).
Proof.
  eexists.
  apply (@forward_training_without_steps
           _ Synthetic.flat_collaborators Synthetic.no_steps
           Synthetic.white Synthetic.grey None true Synthetic.middle).
  - reflexivity.
  - cbn. lia.
Defined.

Lemma negative_weight_fails_at_sampling_witness :
  augment Synthetic.skewed Synthetic.white (Some Synthetic.white) true true
          Synthetic.middle =
  Raise (RuntimeError
    "probability tensor contains either `inf`, `nan` or element < 0") /\
  forward Synthetic.skewed Synthetic.white Synthetic.grey None true
          Synthetic.middle =
  Raise (RuntimeError
    "probability tensor contains either `inf`, `nan` or element < 0").
Proof.
  destruct (@negative_weight_fails_at_sampling
              _ Synthetic.flat_collaborators Synthetic.skewed eq_refl)
    as [H1 H2].
  split; [apply H1 | apply H2; [reflexivity | cbn; lia]].
Defined.

Lemma get_dummy_augmenter_selects_identity_witness :
  exists self,
    @get_dummy_augmenter _ Synthetic.flat_collaborators tt = Ok self /\
    augment self Synthetic.white (Some Synthetic.white) false true
            Synthetic.middle =
    Ok (Synthetic.white, Some Synthetic.white, "Identity",
        advance 1 Synthetic.middle).
Proof.
  eexists. split; [reflexivity|].
  destruct (@get_dummy_augmenter_selects_identity
              _ Synthetic.flat_collaborators tt _ eq_refl)
    as (_ & _ & _ & _ & H).
  exact (H Synthetic.white (Some Synthetic.white) false true
           Synthetic.middle).
Defined.

Lemma augment_restore_without_mask_witness :
  augment Synthetic.two_steps Synthetic.white None true true Synthetic.middle =
  Raise (AttributeError "'NoneType' object has no attribute 'dim'").
Proof.
  destruct (@augment_restore_without_mask
              _ Synthetic.flat_collaborators Synthetic.two_steps
              Synthetic.white true Synthetic.middle two_steps_sampleable)
    as (index & g1 & a & image' & mask' & g2 & H1 & H2 & H3 & H4).
  cbv in H1. inversion H1; subst index g1.
  cbv in H2. inversion H2; subst a.
  cbv in H3. inversion H3; subst image' mask' g2.
  apply H4; [discriminate | reflexivity].
Defined.

End AugmenterMore.

(** ** The validation sets *)

Module ValidationFacts.
Import Augmentation Validation Notions.

(** X13.  In video mode and in image mode, every run of the subset (a
    transformation with one strength) is a run of the full validation
    set; and in image mode neither set holds a transformation that is or
    contains a class of the video module. *)
Theorem validation_subset_runs_in_full_set (is_video : bool) :
  incl (runs (get_validation_augs_subset is_video))
       (runs (get_validation_augs is_video)) /\
  Forall (fun entry => uses_video_codec (fst entry) = false)
         (get_validation_augs_subset false ++ get_validation_augs false).
Proof.
  split.
  - intros run Hrun. destruct is_video; cbn in Hrun;
      repeat (destruct Hrun as [<-|Hrun]; [cbn; tauto|]);
      contradiction.
  - repeat constructor.
Qed.

End ValidationFacts.

(** ** The routes *)

Module ServerFacts.
Import Torch InferenceAv Server Notions PyFacts InferenceFacts PipelineFacts.

Lemma append_injective (a x y : string) :
  (a ++ x)%string = (a ++ y)%string -> x = y.
Proof.
  induction a as [|c a IH]; cbn; intros H; [exact H|].
  inversion H. auto.
Qed.

Lemma temp_paths_differ (here uid1 uid2 uid3 : string) :
  temp_path here "temp_input_" uid1 <> temp_path here "temp_output_" uid2 /\
  temp_path here "temp_input_" uid1 <> temp_path here "temp_output2_" uid3 /\
  temp_path here "temp_output_" uid2 <> temp_path here "temp_output2_" uid3.
Proof.
  unfold temp_path, path_join.
  destruct (ends_with_slash here); repeat split; intros H;
    apply append_injective in H; cbn in H; discriminate H.
Qed.

Lemma write_same path f d : write path f d path = Some f.
Proof. unfold write. now rewrite String.eqb_refl. Qed.

Lemma write_other path f d q : q <> path -> write path f d q = d q.
Proof.
  intros H. unfold write. destruct (String.eqb_spec q path); [contradiction|].
  reflexivity.
Qed.

Lemma remove_if_exists_same path d : remove_if_exists path d path = None.
Proof.
  unfold remove_if_exists, exists_, remove.
  destruct (d path) eqn:E; [now rewrite String.eqb_refl | exact E].
Qed.

Lemma remove_if_exists_other path d q :
  q <> path -> remove_if_exists path d q = d q.
Proof.
  intros H. unfold remove_if_exists, exists_, remove.
  destruct (d path); [|reflexivity].
  destruct (String.eqb_spec q path); [contradiction | reflexivity].
Qed.

Lemma remove_if_exists_none path d q :
  d q = None -> remove_if_exists path d q = None.
Proof.
  intros H. unfold remove_if_exists, exists_, remove.
  destruct (d path); [|exact H].
  destruct (String.eqb q path); [reflexivity | exact H].
Qed.

Section Routes.
Variable model_embed : list float_frame -> message -> list float_frame * message.
Variable model_detect : list float_frame -> tensor2.
Variable ffmpeg_copy : list frame -> media -> Z * bool.
Variable refused : string -> bool.

(** X14.  [analyze_video_file] and the disk.  A request without a
    ['video'] file, or with one whose filename is empty, is answered with
    status 400 and touches no file.  Any other request, whether
    [analyze_video] returns or raises, leaves no file at the temporary
    path and every other path as it was. *)
Theorem analyze_video_file_cleans_up
    (files : list (string * upload)) (here uid : string) (d : disk) :
  let temp_input := temp_path here "temp_input_" uid in
  let answer := fst (analyze_video_file model_detect files here uid d) in
  let d' := snd (analyze_video_file model_detect files here uid d) in
  (forall q, q <> temp_input -> d' q = d q) /\
  match Augmentation.lookup files "video" with
  | None => answer = {| body := Text "No video file uploaded"; status := 400 |}
            /\ d' = d
  | Some video_file =>
    if String.eqb (filename video_file) ""
    then answer = {| body := Text "No video file selected"; status := 400 |}
         /\ d' = d
    else d' temp_input = None /\ (status answer = 200 \/ status answer = 500)
  end.
Proof.
  cbv zeta. unfold analyze_video_file.
  destruct (Augmentation.lookup files "video") as [video_file|].
  - destruct (String.eqb (filename video_file) "").
    + cbn [fst snd]. auto.
    + cbn [fst snd]. split; [|split].
      * intros q Hq. rewrite remove_if_exists_other by exact Hq.
        apply write_other. exact Hq.
      * apply remove_if_exists_same.
      * destruct (analyze_video model_detect (probed (content video_file))
                                (decoded (content video_file)) 8);
          cbn [Py.bind status]; auto.
  - cbn [fst snd]. auto.
Qed.

(** X15.  What [analyze_video_file] answers to an accepted upload whose
    probe succeeds.  A video without frames gets status 500 and the
    message of [torch.cat] as body.  A video with at least one frame, with
    a detector that answers one row of [K + 1] predictions per frame, gets
    status 200 and [K] scores, none of them NaN. *)
Theorem analyze_video_file_answer
    (files : list (string * upload)) (here uid : string) (d : disk)
    (video_file : upload) (probe_val : Z * Z * Z) (K : nat) :
  Augmentation.lookup files "video" = Some video_file ->
  filename video_file <> "" ->
  probed (content video_file) = Ok probe_val ->
  (decoded (content video_file) = [] ->
   fst (analyze_video_file model_detect files here uid d) =
   {| body := Text "torch.cat(): expected a non-empty list of Tensors";
      status := 500 |}) /\
  (decoded (content video_file) <> [] ->
   (forall clip, ncols (model_detect clip) = S K /\
                 length (rows (model_detect clip)) = length clip) ->
   exists scores,
     fst (analyze_video_file model_detect files here uid d) =
       {| body := Json scores; status := 200 |} /\
     length scores = K /\
     Forall (fun s => s <> NaN) scores).
Proof.
  intros Hfile Hname Hprobe. unfold analyze_video_file. rewrite Hfile.
  destruct (String.eqb_spec (filename video_file) ""); [contradiction|].
  cbn [fst]. rewrite Hprobe. split.
  - intros ->. reflexivity.
  - intros Hne Hdet.
    destruct (@decoder_chunks_positive (decoded (content video_file)) 8)
      as (chunks & Hc & Hpart); [lia|].
    rewrite (@analyze_video_value model_detect probe_val
               (decoded (content video_file)) 8 K chunks Hne Hc Hpart Hdet).
    cbn [Py.bind]. eexists. split; [reflexivity|].
    split; [now rewrite length_map, length_seq|].
    apply Forall_forall. intros s Hs. apply in_map_iff in Hs.
    destruct Hs as (j & <- & _). discriminate.
Qed.

Lemma try_remove_other path d q :
  q <> path -> try_remove refused path d q = d q.
Proof.
  intros H. unfold try_remove, os_remove, exists_, remove.
  destruct (d path); [|reflexivity].
  destruct (refused path); [reflexivity|].
  destruct (String.eqb_spec q path); [contradiction | reflexivity].
Qed.

Lemma try_remove_same path d :
  refused path = false -> try_remove refused path d path = None.
Proof.
  intros H. unfold try_remove, os_remove, exists_, remove. rewrite H.
  destruct (d path) eqn:E; [now rewrite String.eqb_refl | exact E].
Qed.

Lemma try_remove_refused path d q :
  refused path = true -> try_remove refused path d q = d q.
Proof.
  intros H. unfold try_remove, os_remove. rewrite H.
  destruct (exists_ d path); reflexivity.
Qed.

Lemma fold_try_remove (p1 p2 p3 : string) (d : disk) (q : string) :
  fold_left (fun d path => try_remove refused path d) [p1; p2; p3] d q =
  if (String.eqb q p1 || String.eqb q p2 || String.eqb q p3)
     && negb (refused q)
  then None else d q.
Proof.
  cbn [fold_left].
  destruct (refused q) eqn:R.
  - rewrite andb_false_r.
    assert (St : forall p d', try_remove refused p d' q = d' q).
    { intros p d'. destruct (String.eqb_spec q p) as [->|Hp].
      - apply try_remove_refused. exact R.
      - apply try_remove_other. exact Hp. }
    rewrite !St. reflexivity.
  - rewrite andb_true_r.
    destruct (String.eqb_spec q p3) as [->|H3].
    + rewrite !orb_true_r. apply try_remove_same. exact R.
    + rewrite orb_false_r, try_remove_other by exact H3.
      destruct (String.eqb_spec q p2) as [->|H2].
      * rewrite orb_true_r. apply try_remove_same. exact R.
      * rewrite orb_false_r, try_remove_other by exact H2.
        destruct (String.eqb_spec q p1) as [->|H1].
        -- apply try_remove_same. exact R.
        -- apply try_remove_other. exact H1.
Qed.

(** X16.  [process_video_file] and the disk.  A request without a usable
    ['video'] file is answered with status 400 and touches no file.  After
    any other request every path but the three temporary ones is as it
    was, and a temporary path that the system lets the route remove holds
    no file.  A removal that the system refuses is passed over: the
    upload then stays at its temporary path. *)
Theorem process_video_file_cleans_up
    (files : list (string * upload)) (here uid1 uid2 uid3 : string)
    (w : world) (d : disk) :
  let temp_input := temp_path here "temp_input_" uid1 in
  let temp_output := temp_path here "temp_output_" uid2 in
  let temp_output2 := temp_path here "temp_output2_" uid3 in
  let out := process_video_file model_embed ffmpeg_copy refused files here
                                uid1 uid2 uid3 w d in
  (forall q, q <> temp_input -> q <> temp_output -> q <> temp_output2 ->
             snd out q = d q) /\
  match Augmentation.lookup files "video" with
  | None =>
    out = (Ok ({| body := Text "No video file uploaded"; status := 400 |}, w),
           d)
  | Some video_file =>
    if String.eqb (filename video_file) ""
    then out = (Ok ({| body := Text "No video file selected";
                       status := 400 |}, w), d)
    else
      (forall p, In p [temp_input; temp_output; temp_output2] ->
                 refused p = false -> snd out p = None) /\
      (refused temp_input = true ->
       snd out temp_input = Some (Saved (content video_file)))
  end.
Proof.
  cbv zeta. unfold process_video_file.
  destruct (Augmentation.lookup files "video") as [video_file|];
    [|cbn [snd]; auto].
  destruct (String.eqb (filename video_file) ""); [cbn [snd]; auto|].
  destruct (temp_paths_differ here uid1 uid2 uid3) as (D12 & D13 & D23).
  set (p1 := temp_path here "temp_input_" uid1) in *.
  set (p2 := temp_path here "temp_output_" uid2) in *.
  set (p3 := temp_path here "temp_output2_" uid3) in *.
  assert (Hin : forall p, In p [p1; p2; p3] ->
                 String.eqb p p1 || String.eqb p p2 || String.eqb p p3 = true).
  { intros p [<-|[<-|[<-|[]]]]; rewrite String.eqb_refl;
      rewrite ?orb_true_r; reflexivity. }
  destruct (embed_video model_embed w (decoded (content video_file)) p2 8)
    as [[[[path bits] frames] w']|e].
  - destruct (ffmpeg_copy frames (content video_file)) as [code left_behind].
    cbn [snd]. split; [|split].
    + intros q H1 H2 H3. rewrite fold_try_remove.
      destruct (String.eqb_spec q p1); [contradiction|].
      destruct (String.eqb_spec q p2); [contradiction|].
      destruct (String.eqb_spec q p3); [contradiction|].
      cbn [orb andb].
      destruct ((code =? 0) || left_behind);
        rewrite ?write_other by assumption; reflexivity.
    + intros t Ht R. rewrite fold_try_remove, (Hin t Ht), R. reflexivity.
    + intros R. rewrite fold_try_remove, R, andb_false_r.
      destruct ((code =? 0) || left_behind);
        rewrite ?write_other by assumption; apply write_same.
  - cbn [snd]. split; [|split].
    + intros q H1 H2 H3. rewrite fold_try_remove.
      destruct (String.eqb_spec q p1); [contradiction|].
      destruct (String.eqb_spec q p2); [contradiction|].
      destruct (String.eqb_spec q p3); [contradiction|].
      cbn [orb andb]. apply write_other. assumption.
    + intros p Hp R. rewrite fold_try_remove, (Hin p Hp), R. reflexivity.
    + intros R. rewrite fold_try_remove, R, andb_false_r. apply write_same.
Qed.

(** X17.  What [process_video_file] answers to an accepted upload, with
    an embedder that keeps the number of frames: status 200 with the 96
    bits that [embed_video] drew and a video of as many frames as the
    upload; the video is the ffmpeg copy with the audio of the upload when
    ffmpeg ended with code 0, and otherwise the watermarked stream without
    audio. *)
Theorem process_video_file_answer
    (files : list (string * upload)) (here uid1 uid2 uid3 : string)
    (w : world) (d : disk) (video_file : upload) :
  Augmentation.lookup files "video" = Some video_file ->
  filename video_file <> "" ->
  (forall clip m, length (fst (model_embed clip m)) = length clip) ->
  exists frames w',
    fst (process_video_file model_embed ffmpeg_copy refused files here
                            uid1 uid2 uid3 w d) =
    Ok ({| body :=
             Multipart
               (if fst (ffmpeg_copy frames (content video_file)) =? 0
                then Muxed frames (content video_file)
                else Encoded frames)
               (map (fun k => draw (gen w) k mod 2) (seq 0 96));
           status := 200 |}, w') /\
    length frames = length (decoded (content video_file)) /\
    gen w' = advance 96 (gen w).
Proof.
  intros Hfile Hname Hshape. unfold process_video_file. rewrite Hfile.
  destruct (String.eqb_spec (filename video_file) ""); [contradiction|].
  destruct (@decoder_chunks_positive (decoded (content video_file)) 8)
    as (chunks & Hc & Hpart); [lia|].
  rewrite (@embed_video_chunks model_embed w (decoded (content video_file))
                               (temp_path here "temp_output_" uid2) 8
                               chunks Hc).
  rewrite randint_message. unfold flatten_tolist. cbn [concat].
  rewrite app_nil_r.
  set (frames := concat (map (processed model_embed
                    [map (fun k => draw (gen w) k mod 2) (seq 0 96)]) chunks)).
  destruct (ffmpeg_copy frames (content video_file)) as [code left_behind] eqn:E.
  exists frames. eexists. cbn [fst]. rewrite E. cbn [fst].
  split; [reflexivity|]. split; [|reflexivity].
  unfold frames. rewrite length_concat_map.
  - now rewrite Hpart.
  - intros xs. apply processed_length. exact Hshape.
Qed.

End Routes.

Lemma analyze_video_file_answer_witness :
  fst (analyze_video_file Synthetic.steady
         (Synthetic.request Synthetic.no_frames) "/srv" "u" Synthetic.empty_disk)
  = {| body := Text "torch.cat(): expected a non-empty list of Tensors";
       status := 500 |} /\
  exists scores,
    fst (analyze_video_file Synthetic.steady
           (Synthetic.request Synthetic.clip20) "/srv" "u" Synthetic.empty_disk)
    = {| body := Json scores; status := 200 |} /\
    length scores = 2%nat /\ Forall (fun s => s <> NaN) scores.
Proof.
  split.
  - apply (@analyze_video_file_answer
             Synthetic.steady (Synthetic.request Synthetic.no_frames)
             "/srv" "u" Synthetic.empty_disk _ (2, 2, 0) 2 eq_refl);
      [discriminate | reflexivity | reflexivity].
  - apply (@analyze_video_file_answer
             Synthetic.steady (Synthetic.request Synthetic.clip20)
             "/srv" "u" Synthetic.empty_disk _ (2, 2, 20) 2 eq_refl);
      [discriminate | reflexivity | discriminate |].
    intros clip. split; [reflexivity|]. unfold Synthetic.steady. cbn [rows].
    apply length_map.
Defined.

Lemma process_video_file_answer_witness :
  exists frames w',
    fst (process_video_file Synthetic.keep Synthetic.ffmpeg_fails
           (fun _ => false)
           (Synthetic.request Synthetic.clip20) "/srv" "u1" "u2" "u3"
           {| gen := Synthetic.counting; embed_log := [] |}
           Synthetic.empty_disk) =
    Ok ({| body :=
             Multipart (Encoded frames)
               (map (fun k => draw Synthetic.counting k mod 2) (seq 0 96));
           status := 200 |}, w') /\
    length frames = 20%nat.
Proof.
  destruct (@process_video_file_answer
              Synthetic.keep Synthetic.ffmpeg_fails (fun _ => false)
              (Synthetic.request Synthetic.clip20) "/srv" "u1" "u2" "u3"
              {| gen := Synthetic.counting; embed_log := [] |}
              Synthetic.empty_disk _ eq_refl)
    as (frames & w' & H1 & H2 & _).
  - discriminate.
  - intros clip m. reflexivity.
  - exists frames, w'. split; [exact H1 | exact H2].
Defined.

Lemma analyze_video_file_cleans_up_witness :
  snd (analyze_video_file Synthetic.steady
         (Synthetic.request Synthetic.no_frames) "/srv" "u" Synthetic.empty_disk)
      "/srv/temp_input_u.mp4" = None /\
  snd (analyze_video_file Synthetic.steady
         (Synthetic.request Synthetic.no_frames) "/srv" "u" Synthetic.empty_disk)
      "/srv/other.mp4" = Synthetic.empty_disk "/srv/other.mp4".
Proof.
  destruct (@analyze_video_file_cleans_up
              Synthetic.steady (Synthetic.request Synthetic.no_frames)
              "/srv" "u" Synthetic.empty_disk) as [H1 H2].
  split.
  - exact (proj1 H2).
  - apply H1. discriminate.
Defined.

Lemma process_video_file_cleans_up_witness :
  let out :=
    process_video_file Synthetic.keep Synthetic.ffmpeg_fails
      (fun p => String.eqb p "/srv/temp_input_u1.mp4")
      (Synthetic.request Synthetic.clip20) "/srv" "u1" "u2" "u3"
      {| gen := Synthetic.counting; embed_log := [] |}
      Synthetic.empty_disk in
  snd out "/srv/temp_output_u2.mp4" = None /\
  snd out "/srv/temp_output2_u3.mp4" = None /\
  snd out "/srv/temp_input_u1.mp4" = Some (Saved Synthetic.clip20) /\
  snd out "/srv/other.mp4" = Synthetic.empty_disk "/srv/other.mp4".
Proof.
  cbv zeta.
  destruct (@process_video_file_cleans_up
              Synthetic.keep Synthetic.ffmpeg_fails
              (fun p => String.eqb p "/srv/temp_input_u1.mp4")
              (Synthetic.request Synthetic.clip20) "/srv" "u1" "u2" "u3"
              {| gen := Synthetic.counting; embed_log := [] |}
              Synthetic.empty_disk) as [H1 [H2 H3]].
  split; [|split; [|split]].
  - apply H2; [right; left; reflexivity | reflexivity].
  - apply H2; [right; right; left; reflexivity | reflexivity].
  - apply H3. reflexivity.
  - apply H1; discriminate.
Defined.

Lemma read_all_reassembles {A} (chunk_size : nat) (fuel : nat) (m : list A) :
  (0 < chunk_size)%nat -> (length m < fuel)%nat ->
  concat (read_all chunk_size fuel m) = m /\
  Forall (fun c => (0 < length c <= chunk_size)%nat)
         (read_all chunk_size fuel m) /\
  (forall i, (S i < length (read_all chunk_size fuel m))%nat ->
             length (nth i (read_all chunk_size fuel m) []) = chunk_size).
Proof.
  intros Hcs. revert m. induction fuel as [|fuel IH]; intros m Hfuel; [lia|].
  cbn [read_all].
  destruct (firstn chunk_size m) as [|x chunk] eqn:E.
  - assert (m = []).
    { destruct m; [reflexivity|]. destruct chunk_size; [lia|]. discriminate E. }
    subst m. repeat split; [constructor | cbn; intros; lia].
  - assert (Hm : (0 < length m)%nat).
    { destruct m; [rewrite firstn_nil in E; discriminate E | cbn; lia]. }
    destruct (IH (skipn chunk_size m)) as (Hcat & Hall & Hfull).
    { rewrite length_skipn. lia. }
    assert (Hlen : length (x :: chunk) = Nat.min chunk_size (length m)).
    { rewrite <- E. apply length_firstn. }
    split; [|split].
    + cbn [concat]. rewrite Hcat, <- E. apply firstn_skipn.
    + constructor; [lia | exact Hall].
    + intros i Hi. cbn [length] in Hi. destruct i as [|i].
      * cbn [nth]. rewrite Hlen.
        destruct (read_all chunk_size fuel (skipn chunk_size m)) as [|c rest] eqn:R;
          [cbn in Hi; lia|].
        assert (skipn chunk_size m <> []).
        { intros Z. rewrite Z in R. destruct fuel; cbn in R; [discriminate|].
          rewrite firstn_nil in R. discriminate. }
        assert ((chunk_size < length m)%nat); [|lia].
        destruct (Nat.lt_ge_cases chunk_size (length m)); [assumption|].
        exfalso. apply H. apply skipn_all2. lia.
      * cbn [nth]. apply Hfull. lia.
Qed.

(** X18.  The chunks that [generate()] yields put end to end are the
    bytes of the encoder; every chunk has at least one and at most 4096
    bytes, and every chunk but the last has 4096. *)
Theorem generate_reassembles {A} (m : list A) :
  concat (generate m) = m /\
  Forall (fun c => (0 < length c <= 4096)%nat) (generate m) /\
  (forall i, (S i < length (generate m))%nat ->
             length (nth i (generate m) []) = 4096%nat).
Proof.
  unfold generate. apply read_all_reassembles; lia.
Qed.

End ServerFacts.
